(** * yaml-to-tfvars: a shallow embedding of [scripts/yaml-to-tfvars.py]

    The script loads a YAML configuration document, validates a few fields
    and prints the infrastructure settings as Terraform variable assignments.
    This file embeds its three functions ([to_hcl_value], [yaml_to_tfvars],
    [validate_config]) and its driver ([main]) and proves the properties the
    specification states about them. *)

From Stdlib Require Import String Ascii List ZArith Lia Bool.
From Stdlib Require Import DecimalString DecimalZ DecimalPos.
Import ListNotations.
Open Scope string_scope.

(** ** Characters the script names *)

Definition dquote : ascii := "034"%char.
Definition backslash : ascii := "092"%char.
Definition newline : ascii := "010"%char.
Definition nl : string := String newline "".

(** ** Values of a loaded document

    [yaml.safe_load] returns a tree of Python objects.  A float is seen by the
    script through [str(f)] and through its truth value only, so it is
    carried as these two observations.  Mapping keys are strings, and a mapping
    keeps its insertion order.  Timestamps, binary data and sets (the last
    [else] branch of [to_hcl_value]) are not part of the value type. *)

Record pyfloat : Type := { float_str : string; float_nonzero : bool }.

#[local] Unset Elimination Schemes.
Inductive value : Type :=
| VNone
| VBool (b : bool)
| VInt (z : Z)
| VFloat (f : pyfloat)
| VStr (s : string)
| VList (items : list value)
| VDict (items : list (string * value)).
#[local] Set Elimination Schemes.

(** The induction principle that reaches the items of sequences and
    mappings. *)
Section ValueInd.
Variable P : value -> Prop.
Hypothesis HNone : P VNone.
Hypothesis HBool : forall b, P (VBool b).
Hypothesis HInt : forall z, P (VInt z).
Hypothesis HFloat : forall f, P (VFloat f).
Hypothesis HStr : forall s, P (VStr s).
Hypothesis HList : forall items, Forall P items -> P (VList items).
Hypothesis HDict :
  forall items, Forall (fun kv => P (snd kv)) items -> P (VDict items).

Fixpoint value_ind (v : value) : P v :=
  match v with
  | VNone => HNone
  | VBool b => HBool b
  | VInt z => HInt z
  | VFloat f => HFloat f
  | VStr s => HStr s
  | VList items =>
      HList items
        ((fix go (l : list value) : Forall P l :=
            match l with
            | [] => Forall_nil _
            | x :: l' => Forall_cons x (value_ind x) (go l')
            end) items)
  | VDict items =>
      HDict items
        ((fix go (l : list (string * value)) :
            Forall (fun kv => P (snd kv)) l :=
            match l with
            | [] => Forall_nil _
            | (k, x) :: l' =>
                Forall_cons (P := fun kv => P (snd kv)) (k, x)
                  (value_ind x) (go l')
            end) items)
  end.
End ValueInd.

(** ** The Python operations the script uses *)

(** [str(z)] for an int: the decimal numeral, with a leading minus sign. *)
Definition str_int (z : Z) : string := NilZero.string_of_int (Z.to_int z).

(** [' ' * n] *)
Fixpoint spaces (n : nat) : string :=
  match n with
  | O => ""
  | S n' => String " " (spaces n')
  end.

(** [s.replace(old, new)] for a pattern [old] of one character. *)
Fixpoint str_replace (old : ascii) (new s : string) : string :=
  match s with
  | EmptyString => EmptyString
  | String c s' =>
      if Ascii.eqb c old then new ++ str_replace old new s'
      else String c (str_replace old new s')
  end.

(** [f'"{s}"'] *)
Definition quoted (s : string) : string :=
  String dquote (s ++ String dquote "").

(** [bool(v)] *)
Definition truthy (v : value) : bool :=
  match v with
  | VNone => false
  | VBool b => b
  | VInt z => negb (Z.eqb z 0)
  | VFloat f => float_nonzero f
  | VStr s => negb (String.eqb s "")
  | VList items => match items with [] => false | _ => true end
  | VDict items => match items with [] => false | _ => true end
  end.

(** [v == s] for a string [s]: only an equal string is equal to a string. *)
Definition py_eq_str (v : value) (s : string) : bool :=
  match v with
  | VStr t => String.eqb t s
  | _ => false
  end.

(** The first binding of a key in a mapping. *)
Fixpoint dict_lookup (k : string) (d : list (string * value)) : option value :=
  match d with
  | [] => None
  | (k', v) :: d' => if String.eqb k' k then Some v else dict_lookup k d'
  end.

(** [sub in s] for two strings. *)
Fixpoint str_contains (sub s : string) : bool :=
  String.prefix sub s
  || match s with
     | EmptyString => false
     | String _ s' => str_contains sub s'
     end.

(** [s.endswith(suffix)] *)
Definition str_endswith (s suffix : string) : bool :=
  let n := String.length s in
  let m := String.length suffix in
  Nat.leb m n && String.eqb (String.substring (n - m) m s) suffix.

(** Exceptions, and results of operations that may raise. *)
Inductive exn : Type := AttributeError | TypeError | KeyError.

Inductive result (A : Type) : Type :=
| Ok (a : A)
| Raise (e : exn).
Arguments Ok {A} a.
Arguments Raise {A} e.

Definition bind {A B : Type} (r : result A) (k : A -> result B) : result B :=
  match r with
  | Ok a => k a
  | Raise e => Raise e
  end.

Notation "x <- r ;; k" := (bind r (fun x => k))
  (at level 61, r at next level, right associativity).

(** [k in c] *)
Definition py_in (k : string) (c : value) : result bool :=
  match c with
  | VDict d =>
      Ok (match dict_lookup k d with Some _ => true | None => false end)
  | VList l => Ok (existsb (fun x => py_eq_str x k) l)
  | VStr s => Ok (str_contains k s)
  | _ => Raise TypeError
  end.

(** [c[k]] for a string [k] *)
Definition py_getitem (c : value) (k : string) : result value :=
  match c with
  | VDict d =>
      match dict_lookup k d with
      | Some v => Ok v
      | None => Raise KeyError
      end
  | _ => Raise TypeError
  end.

(** [c.get(k, default)]; [c.get(k)] is [py_get c k VNone]. *)
Definition py_get (c : value) (k : string) (default : value) : result value :=
  match c with
  | VDict d =>
      Ok (match dict_lookup k d with Some v => v | None => default end)
  | _ => Raise AttributeError
  end.

(** [v.endswith(suffix)]: only strings have the method. *)
Definition py_endswith (v : value) (suffix : string) : result bool :=
  match v with
  | VStr s => Ok (str_endswith s suffix)
  | _ => Raise AttributeError
  end.

(** ** [to_hcl_value] *)

Fixpoint to_hcl_value (value : value) (indent : nat) : string :=
  match value with
  | VNone => quoted ""
  | VBool b => if b then "true" else "false"
  | VInt z => str_int z
  | VFloat f => float_str f
  | VStr s =>
      quoted
        (str_replace dquote (String backslash (String dquote ""))
           (str_replace backslash (String backslash (String backslash "")) s))
  | VList items =>
      match items with
      | [] => "[]"
      | _ =>
          "[" ++ String.concat ", "
                   (map (fun item => to_hcl_value item (indent + 2)) items)
              ++ "]"
      end
  | VDict items =>
      match items with
      | [] => "{}"
      | _ =>
          let indent_str := spaces (indent + 2) in
          "{" ++ nl
              ++ String.concat nl
                   (map (fun kv =>
                           indent_str ++ fst kv ++ " = "
                             ++ to_hcl_value (snd kv) (indent + 2)) items)
              ++ nl ++ spaces indent ++ "}"
      end
  end.

(** ** [yaml_to_tfvars]

    The function appends to the list [lines] statement by statement; a
    statement is modelled as a function from the list before it to the list
    after it, or to the exception it raises. *)

Definition stmt : Type := list string -> result (list string).

Definition seq (s1 s2 : stmt) : stmt := fun lines => bind (s1 lines) s2.
Infix ";;;" := seq (at level 62, right associativity).

(** [lines.append(line)] *)
Definition append (line : string) : stmt := fun lines => Ok (lines ++ [line])%list.

(** [if grp.get(key): lines.append(f'{ident} = {to_hcl_value(grp[key])}')] *)
Definition append_if_set (grp : value) (key ident : string) : stmt :=
  fun lines =>
    v <- py_get grp key VNone ;;
    if truthy v then
      item <- py_getitem grp key ;;
      append (ident ++ " = " ++ to_hcl_value item 0) lines
    else Ok lines.

(** [if key in grp: lines.append(f'{ident} = {to_hcl_value(grp[key])}')] *)
Definition append_if_present (grp : value) (key ident : string) : stmt :=
  fun lines =>
    present <- py_in key grp ;;
    if (present : bool) then
      item <- py_getitem grp key ;;
      append (ident ++ " = " ++ to_hcl_value item 0) lines
    else Ok lines.

(** [if name in config: grp = config[name]; body(grp)] *)
Definition if_group (config : value) (name : string) (body : value -> stmt)
  : stmt :=
  fun lines =>
    present <- py_in name config ;;
    if (present : bool) then
      grp <- py_getitem config name ;;
      body grp lines
    else Ok lines.

Definition header : list string :=
  [ "# Auto-generated from config.yml";
    "# Do not edit directly - modify config.yml instead";
    "#";
    "# Only infrastructure variables are included here.";
    "# Application config (WireGuard, Caddy, etc.) is handled by Ansible.";
    "" ].

(** The list [lines] at the [return] statement. *)
Definition tfvars_lines (config : value) : result (list string) :=
  ( if_group config "azure" (fun azure =>
      append_if_set azure "location" "location" ;;;
      append_if_set azure "resource_group" "resource_group_name" ;;;
      append_if_set azure "vm_size" "vm_size" ;;;
      append_if_present azure "use_static_ip" "use_static_ip" ;;;
      append_if_set azure "availability_zones" "availability_zones" ;;;
      append "") ;;;
    if_group config "ssh" (fun ssh =>
      append_if_set ssh "admin_username" "admin_username" ;;;
      append_if_set ssh "public_key_path" "ssh_public_key_path" ;;;
      append_if_set ssh "allowed_ipv4" "allowed_ssh_ipv4" ;;;
      append_if_present ssh "allowed_ipv6" "allowed_ssh_ipv6" ;;;
      append "") ;;;
    if_group config "network" (fun net =>
      append_if_set net "vnet_address_space" "vnet_address_space" ;;;
      append_if_set net "subnet_address" "subnet_address" ;;;
      append "") ;;;
    if_group config "wireguard" (fun wg =>
      append_if_set wg "port" "wireguard_port" ;;;
      append "") ;;;
    if_group config "tags" (fun tags =>
      append ("tags = " ++ to_hcl_value tags 0) ;;;
      append "") )
    header.

Definition yaml_to_tfvars (config : value) : result string :=
  lines <- tfvars_lines config ;;
  Ok (String.concat nl lines).

(** ** [validate_config] *)

Definition not_set_problem (path : string) : string :=
  "  - " ++ path ++ ": not set or still CHANGEME".

Definition default_name_problem : string :=
  "  - ssh.admin_username: cannot be a common default name".

Definition suffix_problem : string :=
  "  - ssh.allowed_ipv4: must end with /32".

Definition common_default_names : list string :=
  ["admin"; "root"; "azureuser"; "ubuntu"; "administrator"].

(** The test of the loop over [required]. *)
Definition unset_or_placeholder (v : value) : bool :=
  negb (truthy v) || py_eq_str v "CHANGEME" || py_eq_str v "CHANGEME/32".

Definition validate_config (config : value) : result (list string) :=
  let errors := [] in
  ssh1 <- py_get config "ssh" (VDict []) ;;
  admin_username <- py_get ssh1 "admin_username" VNone ;;
  ssh2 <- py_get config "ssh" (VDict []) ;;
  allowed_ipv4 <- py_get ssh2 "allowed_ipv4" VNone ;;
  let required :=
    [("ssh.admin_username", admin_username); ("ssh.allowed_ipv4", allowed_ipv4)] in
  let errors :=
    fold_left
      (fun errors pv =>
         if unset_or_placeholder (snd pv)
         then (errors ++ [not_set_problem (fst pv)])%list else errors)
      required errors in
  ssh <- py_get config "ssh" (VDict []) ;;
  name <- py_get ssh "admin_username" VNone ;;
  let errors :=
    if existsb (py_eq_str name) common_default_names
    then (errors ++ [default_name_problem])%list else errors in
  ip <- py_get ssh "allowed_ipv4" VNone ;;
  if truthy ip then
    ip' <- py_getitem ssh "allowed_ipv4" ;;
    ends <- py_endswith ip' "/32" ;;
    Ok (if negb ends then (errors ++ [suffix_problem])%list else errors)
  else Ok errors.

(** ** [main]

    The driver is run on its parsed arguments and on what loading the
    configuration file gives.  A run ends by returning from [main], by
    [sys.exit], or by an exception nobody catches; the interpreter turns the
    last into exit status 1. *)

Record args : Type :=
  { config_file : string; output : option string; validate : bool }.

Inductive load_result : Type :=
| FileNotFound
| YAMLError (e : string)
| Loaded (config : value).

Inductive ending : Type :=
| Returned
| SysExit (code : Z)
| Uncaught (e : exn).

Record run : Type :=
  { stdout : list string;
    stderr : list string;
    written : option (string * string);
    ended : ending }.

Definition exit_status (r : run) : Z :=
  match ended r with
  | Returned => 0
  | SysExit code => code
  | Uncaught _ => 1
  end.

(** [if args.output:] holds for a path that is given and not empty. *)
Definition output_path (a : args) : option string :=
  match output a with
  | Some path => if String.eqb path "" then None else Some path
  | None => None
  end.

(** The message printed before the conversion when problems were found. *)
Definition continuing : string :=
  nl ++ "Continuing anyway (Terraform will also validate)...".

Definition main (a : args) (file : load_result) : run :=
  match file with
  | FileNotFound =>
      {| stdout := [];
         stderr := [ "Error: Config file not found: " ++ config_file a;
                     "Copy config.yml.example to config.yml and customize it." ];
         written := None;
         ended := SysExit 1 |}
  | YAMLError e =>
      {| stdout := [];
         stderr := [ "Error parsing YAML: " ++ e ];
         written := None;
         ended := SysExit 1 |}
  | Loaded config =>
      match validate_config config with
      | Raise e =>
          {| stdout := []; stderr := []; written := None; ended := Uncaught e |}
      | Ok errors =>
          let report := ("Configuration errors:" :: errors)%list in
          let problems := match errors with [] => false | _ => true end in
          if problems && validate a then
            {| stdout := []; stderr := report; written := None;
               ended := SysExit 1 |}
          else if negb problems && validate a then
            {| stdout := [ "Configuration is valid." ]; stderr := [];
               written := None; ended := SysExit 0 |}
          else
            let warned :=
              if problems then
                (report ++
                 [ continuing ])%list
              else [] in
            match yaml_to_tfvars config with
            | Raise e =>
                {| stdout := []; stderr := warned; written := None;
                   ended := Uncaught e |}
            | Ok tfvars =>
                match output_path a with
                | Some path =>
                    {| stdout := [];
                       stderr := (warned ++ [ ("Generated: " ++ path)%string ])%list;
                       written := Some (path, tfvars);
                       ended := Returned |}
                | None =>
                    {| stdout := [ tfvars ]; stderr := warned;
                       written := None; ended := Returned |}
                end
            end
      end
  end.

(** ** The specification's vocabulary *)

(** A configuration document: a mapping whose groups [azure], [ssh],
    [network] and [wireguard], when present, are mappings.  The fields of a
    group and the [tags] group hold any value. *)
Definition group_is_mapping (d : list (string * value)) (name : string) : bool :=
  match dict_lookup name d with
  | None => true
  | Some (VDict _) => true
  | Some _ => false
  end.

Definition config_document (config : value) : bool :=
  match config with
  | VDict d =>
      group_is_mapping d "azure" && group_is_mapping d "ssh"
      && group_is_mapping d "network" && group_is_mapping d "wireguard"
  | _ => false
  end.

(** The whitelisted fields. *)
Inductive field : Type :=
| azure_location | azure_resource_group | azure_vm_size | azure_use_static_ip
| azure_availability_zones
| ssh_admin_username | ssh_public_key_path | ssh_allowed_ipv4 | ssh_allowed_ipv6
| network_vnet_address_space | network_subnet_address
| wireguard_port
| tags.

Definition all_fields : list field :=
  [ azure_location; azure_resource_group; azure_vm_size; azure_use_static_ip;
    azure_availability_zones;
    ssh_admin_username; ssh_public_key_path; ssh_allowed_ipv4; ssh_allowed_ipv6;
    network_vnet_address_space; network_subnet_address;
    wireguard_port;
    tags ].

(** Where a field lives in the document: its group, and its key in the group
    ([tags] is the group itself). *)
Definition group_of (f : field) : string :=
  match f with
  | azure_location | azure_resource_group | azure_vm_size
  | azure_use_static_ip | azure_availability_zones => "azure"
  | ssh_admin_username | ssh_public_key_path | ssh_allowed_ipv4
  | ssh_allowed_ipv6 => "ssh"
  | network_vnet_address_space | network_subnet_address => "network"
  | wireguard_port => "wireguard"
  | tags => "tags"
  end.

Definition key_of (f : field) : option string :=
  match f with
  | azure_location => Some "location"
  | azure_resource_group => Some "resource_group"
  | azure_vm_size => Some "vm_size"
  | azure_use_static_ip => Some "use_static_ip"
  | azure_availability_zones => Some "availability_zones"
  | ssh_admin_username => Some "admin_username"
  | ssh_public_key_path => Some "public_key_path"
  | ssh_allowed_ipv4 => Some "allowed_ipv4"
  | ssh_allowed_ipv6 => Some "allowed_ipv6"
  | network_vnet_address_space => Some "vnet_address_space"
  | network_subnet_address => Some "subnet_address"
  | wireguard_port => Some "port"
  | tags => None
  end.

(** The input name of a field: its key, or the group name for [tags]. *)
Definition input_name (f : field) : string :=
  match key_of f with
  | Some key => key
  | None => group_of f
  end.

(** The value a document gives to a field, if any. *)
Definition field_value (config : value) (f : field) : option value :=
  match config with
  | VDict d =>
      match dict_lookup (group_of f) d with
      | Some grp =>
          match key_of f with
          | None => Some grp
          | Some key =>
              match grp with
              | VDict g => dict_lookup key g
              | _ => None
              end
          end
      | None => None
      end
  | _ => None
  end.

(** Whether a group is present in a document. *)
Definition group_present (config : value) (name : string) : bool :=
  match config with
  | VDict d => match dict_lookup name d with Some _ => true | None => false end
  | _ => false
  end.

Definition group_names : list string :=
  ["azure"; "ssh"; "network"; "wireguard"; "tags"].

(** The identifier on the assignment line of a field. *)
Definition emitted_name (f : field) : string :=
  match f with
  | azure_resource_group => "resource_group_name"
  | ssh_public_key_path => "ssh_public_key_path"
  | ssh_allowed_ipv4 => "allowed_ssh_ipv4"
  | ssh_allowed_ipv6 => "allowed_ssh_ipv6"
  | wireguard_port => "wireguard_port"
  | _ => input_name f
  end.

(** When a field gets its line: whenever its key is present, or only when its
    value is also true in a condition. *)
Inductive emit_rule : Type := WhenPresent | WhenTruthy.

Definition rule_of (f : field) : emit_rule :=
  match f with
  | azure_use_static_ip | ssh_allowed_ipv6 | tags => WhenPresent
  | _ => WhenTruthy
  end.

(** The value on the assignment line of a field, when the line is written. *)
Definition emitted_value (config : value) (f : field) : option value :=
  match field_value config f with
  | Some v =>
      match rule_of f with
      | WhenPresent => Some v
      | WhenTruthy => if truthy v then Some v else None
      end
  | None => None
  end.

Definition assignment (f : field) (v : value) : string :=
  emitted_name f ++ " = " ++ to_hcl_value v 0.

Definition field_lines (config : value) (f : field) : list string :=
  match emitted_value config f with
  | Some v => [assignment f v]
  | None => []
  end.

Definition fields_of_group (name : string) : list field :=
  filter (fun f => String.eqb (group_of f) name) all_fields.

(** The assignment lines of a group, in the order of its fields. *)
Definition section_lines (config : value) (name : string) : list string :=
  flat_map (field_lines config) (fields_of_group name).

(** The parts after the header: the sections of the groups present in the
    document, in the order of [group_names]. *)
Definition emitted_parts (config : value) : list (list string) :=
  map (section_lines config) (filter (group_present config) group_names).

Definition comment_header : list string :=
  [ "# Auto-generated from config.yml";
    "# Do not edit directly - modify config.yml instead";
    "#";
    "# Only infrastructure variables are included here.";
    "# Application config (WireGuard, Caddy, etc.) is handled by Ansible." ].

(** A line of the output starts with the identifier of a field. *)
Definition line_of (f : field) (line : string) : Prop :=
  exists rest, line = emitted_name f ++ " = " ++ rest.

(** Characters of a string, and the number of line breaks in it. *)
Fixpoint count_char (c : ascii) (s : string) : nat :=
  match s with
  | EmptyString => 0
  | String c' s' => (if Ascii.eqb c' c then 1 else 0) + count_char c s'
  end.

(** The escaping the specification describes: one pass, character by
    character. *)
Definition escape_char (c : ascii) : string :=
  if Ascii.eqb c backslash then String backslash (String backslash "")
  else if Ascii.eqb c dquote then String backslash (String dquote "")
  else String c "".

Fixpoint escape (s : string) : string :=
  match s with
  | EmptyString => EmptyString
  | String c s' => escape_char c ++ escape s'
  end.

(** ** A reader for the literals of the target language

    The script has no reader; the round trip of the specification is stated
    against this one.  It reads the literal syntax of the assignment
    language: quoted strings with backslash escapes, decimal numerals, the
    keywords [true], [false] and [null], tuples in brackets and objects in
    braces with identifier keys.  Templates ([${] and [%{] inside a quoted
    string) and quoted strings that run over a line break are not
    literals and are refused. *)

#[local] Unset Elimination Schemes.
Inductive hcl : Type :=
| HNull
| HBool (b : bool)
| HNumber (numeral : string)
| HString (s : string)
| HTuple (items : list hcl)
| HObject (items : list (string * hcl)).
#[local] Set Elimination Schemes.

Definition is_digit (c : ascii) : bool :=
  let n := nat_of_ascii c in Nat.leb 48 n && Nat.leb n 57.

Definition is_letter (c : ascii) : bool :=
  let n := nat_of_ascii c in
  (Nat.leb 65 n && Nat.leb n 90) || (Nat.leb 97 n && Nat.leb n 122).

Definition is_ident_start (c : ascii) : bool :=
  is_letter c || Ascii.eqb c "_".

Definition is_ident_char (c : ascii) : bool :=
  is_letter c || is_digit c || Ascii.eqb c "_" || Ascii.eqb c "-".

Definition is_num_char (c : ascii) : bool :=
  is_digit c || Ascii.eqb c "." || Ascii.eqb c "e" || Ascii.eqb c "E"
  || Ascii.eqb c "+" || Ascii.eqb c "-".

(** Blanks inside a line, and blanks with line breaks. *)
Definition is_blank (c : ascii) : bool :=
  Ascii.eqb c " " || Ascii.eqb c "009".

Definition is_space (c : ascii) : bool :=
  is_blank c || Ascii.eqb c newline || Ascii.eqb c "013".

Fixpoint skip (p : ascii -> bool) (s : string) : string :=
  match s with
  | EmptyString => EmptyString
  | String c s' => if p c then skip p s' else s
  end.

(** The longest prefix of characters that satisfy [p], and the rest. *)
Fixpoint span (p : ascii -> bool) (s : string) : string * string :=
  match s with
  | EmptyString => (EmptyString, EmptyString)
  | String c s' =>
      if p c then let (a, b) := span p s' in (String c a, b)
      else (EmptyString, s)
  end.

Fixpoint all_chars (p : ascii -> bool) (s : string) : bool :=
  match s with
  | EmptyString => true
  | String c s' => p c && all_chars p s'
  end.

(** One or more digits, then the rest. *)
Definition digits_then (s : string) : option string :=
  let (d, r) := span is_digit s in
  match d with
  | EmptyString => None
  | _ => Some r
  end.

(** The end of a numeral: nothing, or an exponent ([e] or [E], an optional
    sign, digits). *)
Definition is_exponent (r : string) : bool :=
  match r with
  | EmptyString => true
  | String c r' =>
      if Ascii.eqb c "e" || Ascii.eqb c "E" then
        let digits :=
          match r' with
          | String sign r'' =>
              if Ascii.eqb sign "+" || Ascii.eqb sign "-" then r'' else r'
          | EmptyString => r'
          end in
        match digits_then digits with
        | Some EmptyString => true
        | _ => false
        end
      else false
  end.

(** Digits, an optional fraction and an optional exponent. *)
Definition is_unsigned_numeral (s : string) : bool :=
  match digits_then s with
  | None => false
  | Some r =>
      let after_fraction :=
        match r with
        | String c r' => if Ascii.eqb c "." then digits_then r' else Some r
        | EmptyString => Some r
        end in
      match after_fraction with
      | None => false
      | Some r' => is_exponent r'
      end
  end.

(** A numeral: an unsigned numeral, or a minus sign and one. *)
Definition is_numeral (s : string) : bool :=
  match s with
  | String c s' =>
      if Ascii.eqb c "-" then is_unsigned_numeral s'
      else is_unsigned_numeral s
  | EmptyString => false
  end.

(** A bare identifier that is not a keyword. *)
Definition is_identifier (k : string) : bool :=
  match k with
  | EmptyString => false
  | String c _ =>
      is_ident_start c && all_chars is_ident_char k
      && negb (String.eqb k "true" || String.eqb k "false"
               || String.eqb k "null" || String.eqb k "for")
  end.

Definition starts_with_brace (s : string) : bool :=
  match s with
  | String c _ => Ascii.eqb c "{"
  | EmptyString => false
  end.

(** The character a backslash escape stands for. *)
Definition unescape (c : ascii) : option ascii :=
  if Ascii.eqb c backslash then Some backslash
  else if Ascii.eqb c dquote then Some dquote
  else if Ascii.eqb c "n" then Some newline
  else if Ascii.eqb c "t" then Some "009"%char
  else if Ascii.eqb c "r" then Some "013"%char
  else None.

(** The content of a quoted string after its opening quote, and what
    follows the closing quote. *)
Fixpoint read_string (s : string) : option (string * string) :=
  match s with
  | EmptyString => None
  | String c s' =>
      if Ascii.eqb c dquote then Some (EmptyString, s')
      else if Ascii.eqb c newline || Ascii.eqb c "013" then None
      else if Ascii.eqb c backslash then
        match s' with
        | String e s'' =>
            match unescape e, read_string s'' with
            | Some ch, Some (content, rest) => Some (String ch content, rest)
            | _, _ => None
            end
        | EmptyString => None
        end
      else if (Ascii.eqb c "$" || Ascii.eqb c "%") && starts_with_brace s'
      then None
      else
        match read_string s' with
        | Some (content, rest) => Some (String c content, rest)
        | None => None
        end
  end.

Definition read_keyword (s : string) : option (hcl * string) :=
  let (word, rest) := span is_ident_char s in
  if String.eqb word "true" then Some (HBool true, rest)
  else if String.eqb word "false" then Some (HBool false, rest)
  else if String.eqb word "null" then Some (HNull, rest)
  else None.

Definition read_number (s : string) : option (hcl * string) :=
  let (numeral, rest) := span is_num_char s in
  if is_numeral numeral then Some (HNumber numeral, rest) else None.

(** A value at the start of the text, and the rest of the text.  [fuel]
    bounds the number of values and items read. *)
Fixpoint read_value (fuel : nat) (s : string) {struct fuel}
  : option (hcl * string) :=
  match fuel with
  | O => None
  | S n =>
      match s with
      | EmptyString => None
      | String c s' =>
          if Ascii.eqb c dquote then
            match read_string s' with
            | Some (content, rest) => Some (HString content, rest)
            | None => None
            end
          else if Ascii.eqb c "[" then
            match read_items n s' with
            | Some (items, rest) => Some (HTuple items, rest)
            | None => None
            end
          else if Ascii.eqb c "{" then
            match read_fields n s' with
            | Some (items, rest) => Some (HObject items, rest)
            | None => None
            end
          else if is_ident_start c then read_keyword s
          else read_number s
      end
  end

(** The items of a tuple after its opening bracket or after a comma. *)
with read_items (fuel : nat) (s : string) {struct fuel}
  : option (list hcl * string) :=
  match fuel with
  | O => None
  | S n =>
      match skip is_space s with
      | EmptyString => None
      | String c s' as s1 =>
          if Ascii.eqb c "]" then Some ([], s')
          else
            match read_value n s1 with
            | Some (item, rest) =>
                match skip is_space rest with
                | String d rest' =>
                    if Ascii.eqb d "," then
                      match read_items n rest' with
                      | Some (items, rest'') => Some (item :: items, rest'')
                      | None => None
                      end
                    else if Ascii.eqb d "]" then Some ([item], rest')
                    else None
                | EmptyString => None
                end
            | None => None
            end
      end
  end

(** The fields of an object after its opening brace or after a separator
    (a line break or a comma). *)
with read_fields (fuel : nat) (s : string) {struct fuel}
  : option (list (string * hcl) * string) :=
  match fuel with
  | O => None
  | S n =>
      match skip is_space s with
      | EmptyString => None
      | String c s' as s1 =>
          if Ascii.eqb c "}" then Some ([], s')
          else
            let (key, after_key) := span is_ident_char s1 in
            if is_identifier key then
              match skip is_blank after_key with
              | String eq after_eq =>
                  if Ascii.eqb eq "=" then
                    match read_value n (skip is_blank after_eq) with
                    | Some (item, rest) =>
                        match skip is_blank rest with
                        | String d rest' =>
                            if Ascii.eqb d newline || Ascii.eqb d "," then
                              match read_fields n rest' with
                              | Some (items, rest'') =>
                                  Some ((key, item) :: items, rest'')
                              | None => None
                              end
                            else if Ascii.eqb d "}" then
                              Some ([(key, item)], rest')
                            else None
                        | EmptyString => None
                        end
                    | None => None
                    end
                  else None
              | EmptyString => None
              end
            else None
      end
  end.

(** The value a text is the literal of, if it is one. *)
Definition parse_literal (s : string) : option hcl :=
  match read_value (String.length s) s with
  | Some (v, EmptyString) => Some v
  | _ => None
  end.

(** What the target language reads for a value: the value itself, with null
    read as the empty string and a number as its numeral. *)
Fixpoint reads_as (v : value) : hcl :=
  match v with
  | VNone => HString ""
  | VBool b => HBool b
  | VInt z => HNumber (str_int z)
  | VFloat f => HNumber (float_str f)
  | VStr s => HString s
  | VList items => HTuple (map reads_as items)
  | VDict items => HObject (map (fun kv => (fst kv, reads_as (snd kv))) items)
  end.

(** A string that is a literal once quoted and escaped: no line break, no
    template opener. *)
Fixpoint plain_string (s : string) : bool :=
  match s with
  | EmptyString => true
  | String c s' =>
      negb (Ascii.eqb c newline || Ascii.eqb c "013")
      && negb ((Ascii.eqb c "$" || Ascii.eqb c "%") && starts_with_brace s')
      && plain_string s'
  end.

(** The values whose text is a literal: plain strings, floats that print as
    numerals (not [inf] or [nan]), identifier keys. *)
Fixpoint readable (v : value) : bool :=
  match v with
  | VNone | VBool _ | VInt _ => true
  | VFloat f => is_numeral (float_str f)
  | VStr s => plain_string s
  | VList items => forallb readable items
  | VDict items =>
      forallb (fun kv => is_identifier (fst kv) && readable (snd kv)) items
  end.

(** The integer a numeral without fraction and exponent denotes. *)
Definition int_of_numeral (numeral : string) : option Z :=
  match NilZero.int_of_string numeral with
  | Some d => Some (Z.of_int d)
  | None => None
  end.

(** ** Vocabulary of the proofs *)

(** *** The lines of a document *)

(** The line a statement [append_if_set] or [append_if_present] adds for a
    key of a group. *)
Definition key_lines (g : list (string * value)) (key ident : string)
  (r : emit_rule) : list string :=
  match dict_lookup key g with
  | Some v =>
      if match r with WhenPresent => true | WhenTruthy => truthy v end
      then [ident ++ " = " ++ to_hcl_value v 0] else []
  | None => []
  end.

(** What follows the header for one group. *)
Definition group_lines (config : value) (name : string) : list string :=
  if group_present config name
  then (section_lines config name ++ [""])%list else [].

(** The lines of a configuration document: the header, then what each
    group contributes, in the order of the groups. *)
Definition document_lines (config : value) : list string :=
  (header ++ flat_map (group_lines config) group_names)%list.

(** *** The validator on a mapping *)

(** [config.get('ssh', {})] on a mapping. *)
Definition ssh_or_empty (d : list (string * value)) : value :=
  match dict_lookup "ssh" d with
  | Some grp => grp
  | None => VDict []
  end.

(** [grp.get(key)] on a mapping. *)
Definition get_or_none (g : list (string * value)) (key : string) : value :=
  match dict_lookup key g with
  | Some v => v
  | None => VNone
  end.

(** [isinstance(v, str)] *)
Definition is_str (v : value) : bool :=
  match v with
  | VStr _ => true
  | _ => false
  end.

(** The documents on which the validator returns: mappings whose [ssh]
    group is absent or a mapping, with [ssh.allowed_ipv4] absent, falsy or a
    string. *)
Definition validator_returns (config : value) : bool :=
  match config with
  | VDict d =>
      match ssh_or_empty d with
      | VDict g =>
          let ip := get_or_none g "allowed_ipv4" in
          negb (truthy ip) || is_str ip
      | _ => false
      end
  | _ => false
  end.

(** The problems found in an [ssh] group, rule by rule. *)
Definition ssh_problems (g : list (string * value)) : list string :=
  let name := get_or_none g "admin_username" in
  let ip := get_or_none g "allowed_ipv4" in
  ((if unset_or_placeholder name
    then [not_set_problem "ssh.admin_username"] else [])
   ++ (if unset_or_placeholder ip
       then [not_set_problem "ssh.allowed_ipv4"] else [])
   ++ (if existsb (py_eq_str name) common_default_names
       then [default_name_problem] else [])
   ++ (match ip with
       | VStr s =>
           if truthy ip && negb (str_endswith s "/32")
           then [suffix_problem] else []
       | _ => []
       end))%list.

(** *** Tokens and texts *)

(** A text stops a token when it is empty or starts with a character
    outside the token's class. *)
Definition stops (p : ascii -> bool) (rest : string) : bool :=
  match rest with
  | EmptyString => true
  | String c _ => negb (p c)
  end.

(** The first character of a numeral, of a keyword and of a quoted or
    bracketed text is none of the blanks and closing brackets. *)
Definition value_start (c : ascii) : bool :=
  is_digit c || Ascii.eqb c "-" || Ascii.eqb c dquote || Ascii.eqb c "["
  || Ascii.eqb c "{" || Ascii.eqb c "t" || Ascii.eqb c "f".

(** What follows a value in the text of a sequence or of a mapping: a
    comma, a closing bracket or a line break. *)
Definition delimited (rest : string) : bool :=
  match rest with
  | EmptyString => true
  | String c _ =>
      Ascii.eqb c "," || Ascii.eqb c "]" || Ascii.eqb c newline
  end.

(** The concatenation of a list of texts. *)
Definition flat (l : list string) : string := fold_right String.append "" l.

(** One line of a mapping: the indentation, the key, the value and the line
    break. *)
Definition field_text (j i : nat) (kv : string * value) : string :=
  spaces j ++ fst kv ++ " = " ++ to_hcl_value (snd kv) i ++ nl.

(** The text of a value, followed by a delimiter, is read back as the value,
    given fuel for its length. *)
Definition reads_back (v : value) : Prop :=
  readable v = true ->
  forall indent fuel rest,
    String.length (to_hcl_value v indent) <= fuel ->
    delimited rest = true ->
    read_value fuel (to_hcl_value v indent ++ rest) = Some (reads_as v, rest).

(** *** Sample inputs *)

(** A document with every kind of field: whitelisted ones, others, and a
    group that is not recognised. *)
Definition sample_config : value :=
  VDict
    [ ("azure",
       VDict [ ("location", VStr "westeurope");
               ("resource_group", VStr "rg-tunnel");
               ("use_static_ip", VBool false);
               ("availability_zones", VList [VInt 1; VInt 2; VInt 3]);
               ("owner", VStr "someone") ]);
      ("ssh",
       VDict [ ("admin_username", VStr "tunnel");
               ("allowed_ipv4", VStr "1.2.3.4/32") ]);
      ("caddy", VDict [ ("domain", VStr "example.org") ]);
      ("wireguard", VDict [ ("port", VInt 51820); ("peers", VList []) ]);
      ("tags", VDict []) ].

(** The sample document without the fields and groups that are not
    whitelisted. *)
Definition sample_whitelisted : value :=
  VDict
    [ ("azure",
       VDict [ ("location", VStr "westeurope");
               ("resource_group", VStr "rg-tunnel");
               ("use_static_ip", VBool false);
               ("availability_zones", VList [VInt 1; VInt 2; VInt 3]) ]);
      ("ssh",
       VDict [ ("admin_username", VStr "tunnel");
               ("allowed_ipv4", VStr "1.2.3.4/32") ]);
      ("wireguard", VDict [ ("port", VInt 51820) ]);
      ("tags", VDict []) ].

(** The document with an empty [tags] mapping and nothing else. *)
Definition empty_tags_config : value := VDict [("tags", VDict [])].

(** A document whose [ssh.admin_username] is the placeholder of the address
    field. *)
Definition address_placeholder_config : value :=
  VDict [ ("ssh", VDict [ ("admin_username", VStr "CHANGEME/32");
                          ("allowed_ipv4", VStr "1.2.3.4/32") ]) ].

(** A document whose [ssh.admin_username] is the empty string. *)
Definition empty_name_config : value :=
  VDict [ ("ssh", VDict [ ("admin_username", VStr "");
                          ("allowed_ipv4", VStr "1.2.3.4/32") ]) ].

(** A document whose [ssh.allowed_ipv4] is the integer 10. *)
Definition integer_address_config : value :=
  VDict [ ("ssh", VDict [ ("admin_username", VStr "tunnel");
                          ("allowed_ipv4", VInt 10) ]) ].

(** [yaml-to-tfvars.py config.yml] and [yaml-to-tfvars.py config.yml --validate] *)
Definition convert_args : args :=
  {| config_file := "config.yml"; output := None; validate := false |}.

Definition validate_args : args :=
  {| config_file := "config.yml"; output := None; validate := true |}.

(** A float that prints as [inf]. *)
Definition float_inf : pyfloat :=
  {| float_str := "inf"; float_nonzero := true |}.

(** A document with nested sequences and mappings, a null and strings with
    quotes and backslashes. *)
Definition nested_value : value :=
  VDict
    [ ("name", VStr (String dquote (String backslash "tunnel")));
      ("zones", VList [VInt 1; VInt (-2); VList []; VDict []]);
      ("peer", VDict [ ("dns", VNone); ("keep-alive", VBool true) ]);
      ("ratio",
       VFloat {| float_str := "1.5e-07"; float_nonzero := true |}) ].

(** ** Vocabulary of the further properties *)

(** Values in which every mapping is empty. *)
Fixpoint mapping_free (v : value) : bool :=
  match v with
  | VList items => forallb mapping_free items
  | VDict items => match items with [] => true | _ => false end
  | _ => true
  end.

(** A text without a line break. *)
Definition line_free (s : string) : bool :=
  Nat.eqb (count_char newline s) 0.

(** Values whose strings and float texts have no line break and whose
    mappings are empty. *)
Fixpoint single_line (v : value) : bool :=
  match v with
  | VFloat f => line_free (float_str f)
  | VStr s => line_free s
  | VList items => forallb single_line items
  | VDict items => match items with [] => true | _ => false end
  | _ => true
  end.

(** Values without null and without floats. *)
Fixpoint exact_value (v : value) : bool :=
  match v with
  | VNone | VFloat _ => false
  | VBool _ | VInt _ | VStr _ => true
  | VList items => forallb exact_value items
  | VDict items => forallb (fun kv => exact_value (snd kv)) items
  end.

(** A line starts with the identifier of a field and the equals sign. *)
Definition is_line_of (f : field) (line : string) : bool :=
  String.prefix (emitted_name f ++ " = ") line.

Definition field_eq_dec (x y : field) : {x = y} + {x <> y}.
Proof. decide equality. Defined.

(** The problem of a rule, when the rule is broken. *)
Definition pick (broken : bool) (problem : string) : list string :=
  if broken then [problem] else [].

(** The test of the last rule: a value that is true in a condition and is a
    string without the suffix. *)
Definition suffix_missing (ip : value) : bool :=
  match ip with
  | VStr s => truthy ip && negb (str_endswith s "/32")
  | _ => false
  end.

(** What [config.get(group, {}).get(key)] gives for a field of a document. *)
Definition field_or_none (config : value) (f : field) : value :=
  match field_value config f with
  | Some v => v
  | None => VNone
  end.

(** The arguments with the output option left out. *)
Definition without_output (a : args) : args :=
  {| config_file := config_file a; output := None; validate := validate a |}.


(* ================================================================= *)
(** * Properties *)

(** ** Strings *)

Lemma string_app_assoc (a b c : string) : (a ++ b) ++ c = a ++ (b ++ c).
Proof. induction a; simpl; congruence. Qed.

Lemma string_app_nil_r (a : string) : a ++ "" = a.
Proof. induction a; simpl; congruence. Qed.

Lemma count_char_app c (a b : string) :
  count_char c (a ++ b) = count_char c a + count_char c b.
Proof. induction a; simpl; [reflexivity | rewrite IHa; lia]. Qed.

Lemma str_replace_app old new (a b : string) :
  str_replace old new (a ++ b) = str_replace old new a ++ str_replace old new b.
Proof.
  induction a as [|c a IH]; simpl; [reflexivity|].
  destruct (Ascii.eqb c old); rewrite IH; [|reflexivity].
  now rewrite string_app_assoc.
Qed.

(** The two passes of [replace] amount to the one-pass escaping. *)
Lemma replace_twice_escape (s : string) :
  str_replace dquote (String backslash (String dquote ""))
    (str_replace backslash (String backslash (String backslash "")) s)
  = escape s.
Proof.
  induction s as [|c s IH]; [reflexivity|].
  cbn [str_replace escape]. unfold escape_char.
  destruct (Ascii.eqb c backslash) eqn:Hb.
  - rewrite str_replace_app, IH. reflexivity.
  - cbn [str_replace]. rewrite IH.
    destruct (Ascii.eqb c dquote); reflexivity.
Qed.

(** C5: for every string [s], [to_hcl_value(s)] is a double quote, then [s]
    with every backslash replaced by two backslashes and every double quote
    by a backslash and a double quote, every other character unchanged, then
    a closing double quote. *)
Theorem C5_string_escaping (s : string) (indent : nat) :
  to_hcl_value (VStr s) indent = String dquote (escape s ++ String dquote "")
  /\ (forall c : ascii,
        c <> backslash -> c <> dquote -> escape_char c = String c "").
Proof.
  split.
  - cbn [to_hcl_value]. unfold quoted. now rewrite replace_twice_escape.
  - intros c Hb Hq. unfold escape_char.
    destruct (Ascii.eqb_spec c backslash); [contradiction|].
    destruct (Ascii.eqb_spec c dquote); [contradiction|reflexivity].
Qed.

(** ** Running [yaml_to_tfvars] on a configuration document *)

Lemma config_document_inv (config : value) :
  config_document config = true ->
  exists d, config = VDict d
    /\ group_is_mapping d "azure" = true /\ group_is_mapping d "ssh" = true
    /\ group_is_mapping d "network" = true
    /\ group_is_mapping d "wireguard" = true.
Proof.
  destruct config; try discriminate. cbn [config_document].
  rewrite !andb_true_iff. intros [[[? ?] ?] ?]. eauto 6.
Qed.

Lemma group_is_mapping_inv d name :
  group_is_mapping d name = true ->
  dict_lookup name d = None \/ exists g, dict_lookup name d = Some (VDict g).
Proof.
  unfold group_is_mapping.
  destruct (dict_lookup name d) as [[]|]; try discriminate; eauto.
Qed.

Lemma append_if_set_dict g key ident lines :
  append_if_set (VDict g) key ident lines
  = Ok (lines ++ key_lines g key ident WhenTruthy)%list.
Proof.
  unfold append_if_set, key_lines, append. cbn [py_get py_getitem bind].
  destruct (dict_lookup key g) as [v|]; cbn [truthy].
  - destruct (truthy v); [reflexivity | now rewrite app_nil_r].
  - now rewrite app_nil_r.
Qed.

Lemma append_if_present_dict g key ident lines :
  append_if_present (VDict g) key ident lines
  = Ok (lines ++ key_lines g key ident WhenPresent)%list.
Proof.
  unfold append_if_present, key_lines, append. cbn [py_in py_getitem bind].
  destruct (dict_lookup key g) as [v|]; [reflexivity | now rewrite app_nil_r].
Qed.

Lemma if_group_dict d name body lines :
  if_group (VDict d) name body lines
  = match dict_lookup name d with
    | Some grp => body grp lines
    | None => Ok lines
    end.
Proof.
  unfold if_group. cbn [py_in py_getitem bind].
  destruct (dict_lookup name d); reflexivity.
Qed.

Lemma seq_ok (s1 s2 : stmt) lines lines' :
  s1 lines = Ok lines' -> (s1 ;;; s2) lines = s2 lines'.
Proof. unfold seq. now intros ->. Qed.

(** The lines a field contributes, read off its group. *)
Lemma field_lines_key d name g f key :
  dict_lookup name d = Some (VDict g) ->
  group_of f = name -> key_of f = Some key ->
  field_lines (VDict d) f = key_lines g key (emitted_name f) (rule_of f).
Proof.
  intros Hg Hn Hk. unfold field_lines, emitted_value, field_value, key_lines.
  rewrite Hn, Hg, Hk. unfold assignment.
  destruct (dict_lookup key g) as [v|]; [|reflexivity].
  destruct (rule_of f); [reflexivity|]. now destruct (truthy v).
Qed.

Ltac run_stmt :=
  repeat first
    [ erewrite seq_ok by (first [ apply append_if_set_dict
                                | apply append_if_present_dict
                                | reflexivity ])
    | rewrite append_if_set_dict
    | rewrite append_if_present_dict ].

Ltac fold_fields Hg :=
  unfold group_lines, group_present, section_lines; rewrite Hg;
  match goal with
  | |- context [fields_of_group ?n] =>
      let l := eval vm_compute in (fields_of_group n) in
      change (fields_of_group n) with l
  end;
  cbn [flat_map];
  repeat (erewrite field_lines_key by (first [exact Hg | reflexivity]));
  cbn [emitted_name input_name key_of group_of rule_of];
  unfold append; rewrite ?app_nil_r, <- ?app_assoc; reflexivity.

Lemma azure_group d lines :
  group_is_mapping d "azure" = true ->
  if_group (VDict d) "azure" (fun azure =>
      append_if_set azure "location" "location" ;;;
      append_if_set azure "resource_group" "resource_group_name" ;;;
      append_if_set azure "vm_size" "vm_size" ;;;
      append_if_present azure "use_static_ip" "use_static_ip" ;;;
      append_if_set azure "availability_zones" "availability_zones" ;;;
      append "") lines
  = Ok (lines ++ group_lines (VDict d) "azure")%list.
Proof.
  intros H. rewrite if_group_dict.
  destruct (group_is_mapping_inv _ _ H) as [Hg | [g Hg]].
  - unfold group_lines, group_present. rewrite Hg. now rewrite app_nil_r.
  - rewrite Hg. run_stmt. fold_fields Hg.
Qed.

Lemma ssh_group d lines :
  group_is_mapping d "ssh" = true ->
  if_group (VDict d) "ssh" (fun ssh =>
      append_if_set ssh "admin_username" "admin_username" ;;;
      append_if_set ssh "public_key_path" "ssh_public_key_path" ;;;
      append_if_set ssh "allowed_ipv4" "allowed_ssh_ipv4" ;;;
      append_if_present ssh "allowed_ipv6" "allowed_ssh_ipv6" ;;;
      append "") lines
  = Ok (lines ++ group_lines (VDict d) "ssh")%list.
Proof.
  intros H. rewrite if_group_dict.
  destruct (group_is_mapping_inv _ _ H) as [Hg | [g Hg]].
  - unfold group_lines, group_present. rewrite Hg. now rewrite app_nil_r.
  - rewrite Hg. run_stmt. fold_fields Hg.
Qed.

Lemma network_group d lines :
  group_is_mapping d "network" = true ->
  if_group (VDict d) "network" (fun net =>
      append_if_set net "vnet_address_space" "vnet_address_space" ;;;
      append_if_set net "subnet_address" "subnet_address" ;;;
      append "") lines
  = Ok (lines ++ group_lines (VDict d) "network")%list.
Proof.
  intros H. rewrite if_group_dict.
  destruct (group_is_mapping_inv _ _ H) as [Hg | [g Hg]].
  - unfold group_lines, group_present. rewrite Hg. now rewrite app_nil_r.
  - rewrite Hg. run_stmt. fold_fields Hg.
Qed.

Lemma wireguard_group d lines :
  group_is_mapping d "wireguard" = true ->
  if_group (VDict d) "wireguard" (fun wg =>
      append_if_set wg "port" "wireguard_port" ;;;
      append "") lines
  = Ok (lines ++ group_lines (VDict d) "wireguard")%list.
Proof.
  intros H. rewrite if_group_dict.
  destruct (group_is_mapping_inv _ _ H) as [Hg | [g Hg]].
  - unfold group_lines, group_present. rewrite Hg. now rewrite app_nil_r.
  - rewrite Hg. run_stmt. fold_fields Hg.
Qed.

Lemma tags_group d lines :
  if_group (VDict d) "tags" (fun tags =>
      append ("tags = " ++ to_hcl_value tags 0) ;;;
      append "") lines
  = Ok (lines ++ group_lines (VDict d) "tags")%list.
Proof.
  rewrite if_group_dict. unfold group_lines, group_present.
  destruct (dict_lookup "tags" d) as [v|] eqn:Hg.
  - unfold seq, append. cbn [bind]. rewrite <- app_assoc.
    unfold section_lines. change (fields_of_group "tags") with [tags].
    cbn [flat_map]. unfold field_lines, emitted_value, field_value.
    cbn [group_of key_of rule_of]. rewrite Hg. reflexivity.
  - now rewrite app_nil_r.
Qed.

Lemma tfvars_lines_document (config : value) :
  config_document config = true ->
  tfvars_lines config = Ok (document_lines config).
Proof.
  intros H. destruct (config_document_inv _ H) as (d & -> & Ha & Hs & Hn & Hw).
  unfold tfvars_lines, document_lines.
  erewrite seq_ok by (apply azure_group; exact Ha).
  erewrite seq_ok by (apply ssh_group; exact Hs).
  erewrite seq_ok by (apply network_group; exact Hn).
  erewrite seq_ok by (apply wireguard_group; exact Hw).
  rewrite tags_group. unfold group_names. cbn [flat_map].
  now rewrite app_nil_r, <- !app_assoc.
Qed.

Lemma yaml_to_tfvars_document (config : value) :
  config_document config = true ->
  yaml_to_tfvars config = Ok (String.concat nl (document_lines config)).
Proof.
  intros H. unfold yaml_to_tfvars. now rewrite tfvars_lines_document.
Qed.

Lemma header_comment_header : header = (comment_header ++ [""])%list.
Proof. reflexivity. Qed.

Lemma group_lines_parts (config : value) :
  flat_map (group_lines config) group_names
  = flat_map (fun part => (part ++ [""])%list) (emitted_parts config).
Proof.
  unfold emitted_parts. induction group_names as [|name names IH].
  - reflexivity.
  - cbn [flat_map filter]. rewrite IH. unfold group_lines.
    destruct (group_present config name); reflexivity.
Qed.

Lemma field_in_its_group (f : field) : In f (fields_of_group (group_of f)).
Proof. destruct f; vm_compute; tauto. Qed.

Lemma fields_of_group_inv (f : field) name :
  In f (fields_of_group name) -> group_of f = name.
Proof.
  unfold fields_of_group. rewrite filter_In. intros [_ H].
  now apply String.eqb_eq.
Qed.

Lemma group_of_named (f : field) : In (group_of f) group_names.
Proof. destruct f; vm_compute; tauto. Qed.

Lemma emitted_value_present config f v :
  emitted_value config f = Some v -> group_present config (group_of f) = true.
Proof.
  unfold emitted_value, field_value, group_present.
  destruct config; try discriminate.
  destruct (dict_lookup (group_of f) items); [reflexivity | discriminate].
Qed.

(** Every line a field is emitted on is a line of the document... *)
Lemma emitted_in_document config f v :
  emitted_value config f = Some v -> In (assignment f v) (document_lines config).
Proof.
  intros H. unfold document_lines. apply in_or_app. right.
  apply in_flat_map. exists (group_of f). split; [apply group_of_named|].
  unfold group_lines. rewrite (emitted_value_present _ _ _ H).
  apply in_or_app. left. unfold section_lines. apply in_flat_map.
  exists f. split; [apply field_in_its_group|].
  unfold field_lines. rewrite H. now left.
Qed.

(** ... and the document has no other lines than the header, blank lines and
    these. *)
Lemma document_line_inv config line :
  In line (document_lines config) ->
  In line comment_header \/ line = ""
  \/ exists f v, emitted_value config f = Some v /\ line = assignment f v.
Proof.
  unfold document_lines. rewrite header_comment_header, <- app_assoc.
  intros H. apply in_app_or in H as [H | H]; [now left|].
  apply in_app_or in H as [[<- | []] | H]; [right; now left|].
  apply in_flat_map in H as (name & _ & H). unfold group_lines in H.
  destruct (group_present config name); [|contradiction].
  apply in_app_or in H as [H | [<- | []]]; [|right; now left].
  unfold section_lines in H. apply in_flat_map in H as (f & _ & H).
  unfold field_lines in H. destruct (emitted_value config f) as [v|] eqn:E.
  - destruct H as [<- | []]. right; right. eauto.
  - contradiction.
Qed.

Lemma assignment_not_blank f v : assignment f v <> "".
Proof. destruct f; discriminate. Qed.

Lemma section_lines_not_blank config name :
  Forall (fun line => line <> "") (section_lines config name).
Proof.
  apply Forall_forall. intros line H. unfold section_lines in H.
  apply in_flat_map in H as (f & _ & H). unfold field_lines in H.
  destruct (emitted_value config f); [|contradiction].
  destruct H as [<- | []]. apply assignment_not_blank.
Qed.

Lemma flat_map_agree {A B : Type} (f g : A -> list B) (l : list A) :
  (forall a, In a l -> f a = g a) -> flat_map f l = flat_map g l.
Proof.
  induction l as [|a l IH]; intros H; [reflexivity|].
  cbn [flat_map]. rewrite (H a (or_introl eq_refl)), IH; [reflexivity|].
  intros b Hb. apply H. now right.
Qed.

(** Two documents that agree on the presence of the groups and on the
    whitelisted fields have the same lines. *)
Lemma document_lines_ext (c1 c2 : value) :
  (forall name, In name group_names ->
                group_present c1 name = group_present c2 name) ->
  (forall f, field_value c1 f = field_value c2 f) ->
  document_lines c1 = document_lines c2.
Proof.
  intros Hp Hf. unfold document_lines. f_equal.
  apply flat_map_agree. intros name Hin. unfold group_lines.
  rewrite (Hp name Hin). destruct (group_present c2 name); [|reflexivity].
  f_equal. unfold section_lines. apply flat_map_ext. intros f.
  unfold field_lines, emitted_value. now rewrite Hf.
Qed.

(** The identifiers are told apart by what a line starts with. *)
Lemma line_of_assignment f g v : line_of f (assignment g v) -> f = g.
Proof.
  intros [rest H]. unfold assignment in H.
  destruct f, g; try reflexivity; discriminate H.
Qed.

Lemma line_of_not_header f line : line_of f line -> ~ In line comment_header.
Proof.
  intros [rest ->] H. unfold comment_header in H. cbn [In] in H.
  destruct f; repeat (destruct H as [H | H]; [discriminate H|]); exact H.
Qed.

Lemma line_of_not_blank f line : line_of f line -> line <> "".
Proof. intros [rest ->]. destruct f; discriminate. Qed.

(** C7: for every configuration document the output is the five comment
    lines of the header, then the sections of the groups present in the
    document in the order azure, ssh, network, wireguard, tags, each of these
    parts followed by exactly one blank line; a group that is absent
    contributes nothing.  The assignment lines themselves are not blank. *)
Theorem C7_layout (config : value) :
  config_document config = true ->
  exists lines,
    tfvars_lines config = Ok lines
    /\ yaml_to_tfvars config = Ok (String.concat nl lines)
    /\ lines
       = (comment_header ++ [""]
          ++ flat_map (fun part => part ++ [""])
               (map (section_lines config)
                  (filter (group_present config)
                     ["azure"; "ssh"; "network"; "wireguard"; "tags"])))%list
    /\ length comment_header = 5
    /\ Forall (fun line => exists text, line = String "#" text) comment_header
    /\ Forall (Forall (fun line => line <> ""))
         (map (section_lines config)
            (filter (group_present config)
               ["azure"; "ssh"; "network"; "wireguard"; "tags"])).
Proof.
  intros H. exists (document_lines config).
  split; [now apply tfvars_lines_document|].
  split; [now apply yaml_to_tfvars_document|].
  split.
  - unfold document_lines. rewrite header_comment_header, group_lines_parts.
    now rewrite <- app_assoc.
  - split; [reflexivity|]. split.
    + unfold comment_header. repeat constructor; eexists; reflexivity.
    + apply Forall_forall. intros part Hp. apply in_map_iff in Hp as (n & <- & _).
      apply section_lines_not_blank.
Qed.

Lemma C7_layout_witness :
  config_document sample_config = true
  /\ exists lines,
      tfvars_lines sample_config = Ok lines
      /\ lines
         = (comment_header ++ [""]
            ++ flat_map (fun part => part ++ [""])
                 (map (section_lines sample_config)
                    ["azure"; "ssh"; "wireguard"; "tags"]))%list.
Proof.
  split; [reflexivity|].
  destruct (C7_layout sample_config eq_refl) as (lines & H1 & _ & H2 & _).
  exists lines. split; [exact H1 | exact H2].
Defined.

(** C9: on the assignment lines, [azure.resource_group] is written as
    [resource_group_name], [ssh.public_key_path] as [ssh_public_key_path],
    [ssh.allowed_ipv4] as [allowed_ssh_ipv4], [ssh.allowed_ipv6] as
    [allowed_ssh_ipv6] and [wireguard.port] as [wireguard_port]; every other
    whitelisted field keeps its input name.  For every configuration document
    each emitted field has its line under that identifier, and each
    assignment line is the line of an emitted field under that identifier. *)
Theorem C9_identifiers (config : value) :
  config_document config = true ->
  exists lines,
    tfvars_lines config = Ok lines
    /\ (forall f v,
          emitted_value config f = Some v ->
          In (emitted_name f ++ " = " ++ to_hcl_value v 0) lines)
    /\ (forall line,
          In line lines ->
          In line comment_header \/ line = ""
          \/ exists f v,
               emitted_value config f = Some v
               /\ line = emitted_name f ++ " = " ++ to_hcl_value v 0)
    /\ emitted_name azure_resource_group = "resource_group_name"
    /\ emitted_name ssh_public_key_path = "ssh_public_key_path"
    /\ emitted_name ssh_allowed_ipv4 = "allowed_ssh_ipv4"
    /\ emitted_name ssh_allowed_ipv6 = "allowed_ssh_ipv6"
    /\ emitted_name wireguard_port = "wireguard_port"
    /\ (forall f,
          ~ In f [ azure_resource_group; ssh_public_key_path; ssh_allowed_ipv4;
                   ssh_allowed_ipv6; wireguard_port ] ->
          emitted_name f = input_name f).
Proof.
  intros H. exists (document_lines config).
  split; [now apply tfvars_lines_document|].
  split; [intros f v; apply emitted_in_document|].
  split; [intros line; apply document_line_inv|].
  repeat (split; [reflexivity|]).
  intros f Hf. destruct f; try reflexivity; exfalso; apply Hf; cbn [In]; tauto.
Qed.

Lemma C9_identifiers_witness :
  config_document sample_config = true
  /\ exists lines,
      tfvars_lines sample_config = Ok lines
      /\ In ("resource_group_name = " ++ quoted "rg-tunnel") lines
      /\ In "wireguard_port = 51820" lines.
Proof.
  split; [reflexivity|].
  destruct (C9_identifiers sample_config eq_refl) as (lines & H1 & H2 & _).
  exists lines. split; [exact H1|]. split.
  - exact (H2 azure_resource_group (VStr "rg-tunnel") eq_refl).
  - exact (H2 wireguard_port (VInt 51820) eq_refl).
Defined.

(** C4: for every configuration document, every assignment line of the
    output is the line of one of the thirteen whitelisted fields, carrying
    the value the document gives to that field; and the output is the same for
    every other document that has the same groups present and gives the same
    values to the whitelisted fields, whatever other fields it holds. *)
Theorem C4_whitelist (config : value) :
  config_document config = true ->
  exists lines,
    tfvars_lines config = Ok lines
    /\ (forall line,
          In line lines ->
          In line comment_header \/ line = ""
          \/ exists f v,
               In f all_fields /\ field_value config f = Some v
               /\ line = emitted_name f ++ " = " ++ to_hcl_value v 0)
    /\ (forall config',
          config_document config' = true ->
          (forall name, In name group_names ->
                        group_present config' name = group_present config name) ->
          (forall f, field_value config' f = field_value config f) ->
          tfvars_lines config' = Ok lines
          /\ yaml_to_tfvars config' = yaml_to_tfvars config).
Proof.
  intros H. exists (document_lines config).
  split; [now apply tfvars_lines_document|]. split.
  - intros line Hl.
    destruct (document_line_inv _ _ Hl) as [Hh | [Hb | (f & v & Hv & ->)]];
      [now left | right; now left |].
    right; right. exists f, v. split; [destruct f; vm_compute; tauto|].
    split; [|reflexivity].
    unfold emitted_value in Hv. destruct (field_value config f) as [w|];
      [|discriminate].
    destruct (rule_of f); [congruence|].
    destruct (truthy w); [congruence | discriminate].
  - intros config' H' Hp Hf.
    rewrite !yaml_to_tfvars_document, tfvars_lines_document by assumption.
    now rewrite (document_lines_ext config' config Hp Hf).
Qed.

Lemma C4_whitelist_witness :
  config_document sample_config = true
  /\ yaml_to_tfvars sample_whitelisted = yaml_to_tfvars sample_config.
Proof.
  split; [reflexivity|].
  destruct (C4_whitelist sample_config eq_refl) as (lines & _ & _ & H).
  apply (H sample_whitelisted eq_refl).
  - intros name Hn. cbn [In group_names] in Hn.
    repeat (destruct Hn as [<- | Hn]; [reflexivity|]). destruct Hn.
  - intros f. destruct f; reflexivity.
Defined.

(** ** Joined text *)

Lemma concat_cons sep (x : string) (l : list string) :
  l <> [] -> String.concat sep (x :: l) = x ++ sep ++ String.concat sep l.
Proof. destruct l; [congruence | reflexivity]. Qed.

Lemma concat_split sep (l1 : list string) (x : string) (l2 : list string) :
  l1 <> [] -> l2 <> [] ->
  String.concat sep (l1 ++ x :: l2)
  = String.concat sep l1 ++ sep ++ x ++ sep ++ String.concat sep l2.
Proof.
  intros H1 H2. induction l1 as [|a l1 IH]; [congruence|].
  destruct l1 as [|b l1].
  - cbn [app]. rewrite concat_cons by discriminate.
    rewrite concat_cons by exact H2. reflexivity.
  - change ((a :: b :: l1) ++ x :: l2)%list with (a :: ((b :: l1) ++ x :: l2))%list.
    rewrite concat_cons by discriminate. rewrite IH by discriminate.
    rewrite (concat_cons sep a (b :: l1)) by discriminate.
    now rewrite !string_app_assoc.
Qed.

Lemma count_char_concat c sep (l : list string) :
  count_char c sep = 0 ->
  count_char c (String.concat sep l) = list_sum (map (count_char c) l).
Proof.
  intros Hs. induction l as [|x l IH]; [reflexivity|].
  destruct l as [|y l].
  - cbn. lia.
  - rewrite concat_cons by discriminate.
    rewrite !count_char_app, IH, Hs. unfold list_sum. cbn [map fold_right]. lia.
Qed.

(** The lines of a document end with a blank line. *)
Lemma document_lines_end (config : value) :
  exists l, document_lines config = (l ++ [""])%list.
Proof.
  unfold document_lines. rewrite header_comment_header.
  generalize comment_header as acc. induction group_names as [|name names IH];
    intros acc.
  - exists acc. cbn [flat_map]. now rewrite app_nil_r.
  - cbn [flat_map]. unfold group_lines at 1.
    destruct (group_present config name).
    + rewrite !app_assoc. rewrite <- (app_assoc acc). apply IH.
    + cbn [app]. apply IH.
Qed.

(** A line of a document that is neither blank nor a header line stands
    between two line breaks of the text. *)
Lemma document_text_line (config : value) (line : string) :
  In line (document_lines config) ->
  line <> "" -> ~ In line comment_header ->
  exists before after,
    String.concat nl (document_lines config)
    = before ++ nl ++ line ++ nl ++ after.
Proof.
  intros Hin Hb Hh. destruct (in_split _ _ Hin) as (l1 & l2 & E).
  rewrite E. exists (String.concat nl l1), (String.concat nl l2).
  apply concat_split.
  - intros ->. cbn [app] in E. unfold document_lines, header in E.
    injection E as E _. apply Hh. rewrite <- E. now left.
  - intros ->. destruct (document_lines_end config) as (l & El).
    rewrite El in E. apply app_inj_tail in E as [_ E]. congruence.
Qed.

(** C6: the empty sequence is rendered as the two characters of an opening
    and a closing bracket; a sequence with items as an opening bracket, the
    rendered items joined by a comma and a space, and a closing bracket,
    which adds no line break to those of the items.  For a document with
    [azure.availability_zones = [1, 2, 3]] the output has the line
    [availability_zones = [1, 2, 3]]. *)
Theorem C6_sequences :
  (forall indent, to_hcl_value (VList []) indent = "[]")
  /\ (forall item items indent,
        to_hcl_value (VList (item :: items)) indent
        = "[" ++ String.concat ", "
                   (map (fun item => to_hcl_value item (indent + 2))
                      (item :: items))
              ++ "]"
        /\ count_char newline (to_hcl_value (VList (item :: items)) indent)
           = list_sum
               (map (fun item =>
                       count_char newline (to_hcl_value item (indent + 2)))
                  (item :: items)))
  /\ (forall config,
        config_document config = true ->
        field_value config azure_availability_zones
        = Some (VList [VInt 1; VInt 2; VInt 3]) ->
        exists lines text,
          tfvars_lines config = Ok lines
          /\ In "availability_zones = [1, 2, 3]" lines
          /\ yaml_to_tfvars config = Ok text
          /\ exists before after,
               text = before ++ nl ++ "availability_zones = [1, 2, 3]"
                        ++ nl ++ after).
Proof.
  split; [reflexivity|]. split.
  - intros item items indent. split; [reflexivity|].
    cbn [to_hcl_value]. rewrite !count_char_app.
    rewrite count_char_concat by reflexivity. rewrite map_map.
    cbn [count_char Ascii.eqb]. cbn. lia.
  - intros config H Hz.
    exists (document_lines config), (String.concat nl (document_lines config)).
    assert (Hin : In "availability_zones = [1, 2, 3]" (document_lines config)).
    { apply (emitted_in_document config azure_availability_zones
               (VList [VInt 1; VInt 2; VInt 3])).
      unfold emitted_value. now rewrite Hz. }
    split; [now apply tfvars_lines_document|]. split; [exact Hin|].
    split; [now apply yaml_to_tfvars_document|].
    apply document_text_line; [exact Hin | discriminate |].
    unfold comment_header. cbn [In]. intros Hc.
    repeat (destruct Hc as [Hc | Hc]; [discriminate Hc|]). exact Hc.
Qed.

Lemma C6_sequences_witness :
  config_document sample_config = true
  /\ field_value sample_config azure_availability_zones
     = Some (VList [VInt 1; VInt 2; VInt 3])
  /\ exists lines,
       tfvars_lines sample_config = Ok lines
       /\ In "availability_zones = [1, 2, 3]" lines.
Proof.
  split; [reflexivity|]. split; [reflexivity|].
  destruct (proj2 (proj2 C6_sequences) sample_config eq_refl eq_refl)
    as (lines & text & H1 & H2 & _).
  exists lines. split; [exact H1 | exact H2].
Defined.

Lemma rule_of_present (f : field) :
  rule_of f = WhenPresent <-> In f [azure_use_static_ip; ssh_allowed_ipv6; tags].
Proof.
  cbn [In]. destruct f; cbn [rule_of]; split; intros H; try reflexivity;
    try discriminate H; try tauto;
    repeat (destruct H as [H | H]; [discriminate H|]); destruct H.
Qed.

Lemma emitted_value_iff (config : value) (f : field) (v : value) :
  emitted_value config f = Some v
  <-> field_value config f = Some v
      /\ (In f [azure_use_static_ip; ssh_allowed_ipv6; tags] \/ truthy v = true).
Proof.
  rewrite <- rule_of_present. unfold emitted_value.
  destruct (field_value config f) as [w|]; [|split; [discriminate | now intros [? _]]].
  destruct (rule_of f).
  - split; [intros ->; auto | now intros [-> _]].
  - destruct (truthy w) eqn:T.
    + split; [intros [= ->]; auto | now intros [-> _]].
    + split; [discriminate|]. intros [[= ->] [? | ?]]; congruence.
Qed.

(** C10, as stated, fails for [tags]: it is a whitelisted field other than
    [azure.use_static_ip] and [ssh.allowed_ipv6], its value here is falsy,
    and its line is written all the same. *)
Lemma C10_counterexample :
  config_document empty_tags_config = true
  /\ field_value empty_tags_config tags = Some (VDict [])
  /\ truthy (VDict []) = false
  /\ tfvars_lines empty_tags_config
     = Ok (comment_header ++ [""; "tags = {}"; ""])%list.
Proof. repeat split. Qed.

(** C10, amended: for every configuration document and every whitelisted
    field other than [azure.use_static_ip], [ssh.allowed_ipv6] and [tags],
    the output has a line for the field exactly when the field is present
    with a value that is not falsy; for these three fields it has the line
    exactly when the key is present, whatever the value. *)
Theorem C10_omission (config : value) :
  config_document config = true ->
  exists lines,
    tfvars_lines config = Ok lines
    /\ forall f,
         (exists line, In line lines /\ line_of f line)
         <-> (exists v,
                field_value config f = Some v
                /\ (In f [azure_use_static_ip; ssh_allowed_ipv6; tags]
                    \/ truthy v = true)).
Proof.
  intros H. exists (document_lines config).
  split; [now apply tfvars_lines_document|].
  intros f. split.
  - intros (line & Hin & Hf).
    destruct (document_line_inv _ _ Hin) as [Hh | [Hb | (g & v & Hv & ->)]].
    + now apply line_of_not_header in Hf.
    + now apply line_of_not_blank in Hf.
    + apply line_of_assignment in Hf. subst g. exists v.
      now apply emitted_value_iff.
  - intros (v & Hv). apply emitted_value_iff in Hv.
    exists (assignment f v). split; [now apply emitted_in_document|].
    now exists (to_hcl_value v 0).
Qed.

(** In the sample document [azure.use_static_ip] is [false] and has its line;
    [azure.vm_size] is absent and has none. *)
Lemma C10_omission_witness :
  config_document sample_config = true
  /\ exists lines,
      tfvars_lines sample_config = Ok lines
      /\ (exists line, In line lines /\ line_of azure_use_static_ip line)
      /\ ~ (exists line, In line lines /\ line_of azure_vm_size line).
Proof.
  split; [reflexivity|].
  destruct (C10_omission sample_config eq_refl) as (lines & H1 & H2).
  exists lines. split; [exact H1|]. split.
  - apply (proj2 (H2 azure_use_static_ip)).
    exists (VBool false). split; [reflexivity|]. left. now left.
  - intros Hl. apply (proj1 (H2 azure_vm_size)) in Hl as (v & Hv & _).
    discriminate Hv.
Defined.

(** ** [validate_config] *)

Lemma validate_config_ssh d g :
  ssh_or_empty d = VDict g ->
  validator_returns (VDict d) = true ->
  validate_config (VDict d) = Ok (ssh_problems g).
Proof.
  intros Hg Hr. unfold validator_returns in Hr. rewrite Hg in Hr.
  unfold validate_config. cbn [py_get bind]. fold (ssh_or_empty d).
  rewrite Hg. cbn [py_get bind py_getitem]. fold (get_or_none g "admin_username").
  fold (get_or_none g "allowed_ipv4"). unfold ssh_problems.
  cbn [fold_left fst snd app].
  cbv zeta in Hr.
  destruct (unset_or_placeholder (get_or_none g "admin_username"));
    destruct (unset_or_placeholder (get_or_none g "allowed_ipv4"));
    destruct (existsb (py_eq_str (get_or_none g "admin_username"))
                common_default_names);
    cbn [app];
    unfold get_or_none in *;
    (destruct (dict_lookup "allowed_ipv4" g) as [ip|];
     [ destruct (truthy ip) eqn:T;
       [ destruct ip; try discriminate Hr; cbn [py_endswith bind];
         cbn [andb]; destruct (str_endswith s "/32"); reflexivity
       | destruct ip; cbn [andb]; rewrite ?app_nil_r; reflexivity ]
     | cbn [truthy]; rewrite ?app_nil_r; reflexivity ]).
Qed.

(** The validator returns a list exactly on these documents. *)
Lemma validate_config_returns (config : value) :
  (exists errors, validate_config config = Ok errors)
  <-> validator_returns config = true.
Proof.
  split.
  - intros [errors H]. destruct config; try discriminate H.
    unfold validator_returns. unfold validate_config in H.
    cbn [py_get bind] in H. fold (ssh_or_empty items) in H.
    destruct (ssh_or_empty items); try discriminate H.
    cbn [py_get bind py_getitem] in H. cbv zeta.
    fold (get_or_none items0 "allowed_ipv4") in H.
    unfold get_or_none in *.
    destruct (dict_lookup "allowed_ipv4" items0) as [ip|]; [|reflexivity].
    destruct (truthy ip); [|reflexivity].
    destruct ip; try discriminate H; reflexivity.
  - intros H. destruct config; try discriminate H.
    pose proof H as H'. unfold validator_returns in H'.
    destruct (ssh_or_empty items) eqn:E; try discriminate H'.
    exists (ssh_problems items0). now apply validate_config_ssh.
Qed.

Lemma field_value_ssh d g (f : field) key :
  ssh_or_empty d = VDict g ->
  group_of f = "ssh" -> key_of f = Some key ->
  field_value (VDict d) f = dict_lookup key g.
Proof.
  intros Hg Hn Hk. unfold field_value, ssh_or_empty in *. rewrite Hn, Hk.
  destruct (dict_lookup "ssh" d) as [grp|].
  - now subst grp.
  - now injection Hg as <-.
Qed.

Lemma unset_or_placeholder_iff (v : value) :
  unset_or_placeholder v = true
  <-> truthy v = false \/ v = VStr "CHANGEME" \/ v = VStr "CHANGEME/32".
Proof.
  unfold unset_or_placeholder. rewrite !orb_true_iff, negb_true_iff.
  assert (E : forall s, py_eq_str v s = true <-> v = VStr s).
  { intros s. destruct v; cbn [py_eq_str]; try (split; discriminate).
    rewrite String.eqb_eq. split; congruence. }
  rewrite !E. tauto.
Qed.

(** C3, as stated, fails: the problem is also reported for a user name that
    is present and is not [CHANGEME], namely for [CHANGEME/32] and for the
    empty string. *)
Lemma C3_counterexample :
  (field_value address_placeholder_config ssh_admin_username
   = Some (VStr "CHANGEME/32")
   /\ String.eqb "CHANGEME/32" "CHANGEME" = false
   /\ validate_config address_placeholder_config
      = Ok ["  - ssh.admin_username: not set or still CHANGEME"])
  /\ (field_value empty_name_config ssh_admin_username = Some (VStr "")
      /\ String.eqb "" "CHANGEME" = false
      /\ validate_config empty_name_config
         = Ok ["  - ssh.admin_username: not set or still CHANGEME"]).
Proof. repeat split. Qed.

(** C3, amended: on every document on which the validator returns (a mapping
    whose [ssh] group is absent or a mapping and whose [ssh.allowed_ipv4] is
    absent, falsy or a string), the returned list has the
    not-set-or-placeholder problem of [ssh.admin_username] exactly when
    [ssh.admin_username] is absent, falsy, or equal to [CHANGEME] or to
    [CHANGEME/32]; in particular it has it when [ssh.admin_username] is
    [CHANGEME]. *)
Theorem C3_admin_username (config : value) :
  validator_returns config = true ->
  exists errors,
    validate_config config = Ok errors
    /\ (In "  - ssh.admin_username: not set or still CHANGEME" errors
        <-> field_value config ssh_admin_username = None
            \/ exists v,
                 field_value config ssh_admin_username = Some v
                 /\ (truthy v = false \/ v = VStr "CHANGEME"
                     \/ v = VStr "CHANGEME/32"))
    /\ (field_value config ssh_admin_username = Some (VStr "CHANGEME") ->
        In "  - ssh.admin_username: not set or still CHANGEME" errors).
Proof.
  intros H. destruct config as [| | | | | |d]; try discriminate H.
  pose proof H as H'. unfold validator_returns in H'.
  destruct (ssh_or_empty d) as [| | | | | |g] eqn:Hg; try discriminate H'.
  exists (ssh_problems g). split; [now apply validate_config_ssh|].
  rewrite (field_value_ssh d g ssh_admin_username "admin_username" Hg)
    by reflexivity.
  assert (Hin : In "  - ssh.admin_username: not set or still CHANGEME"
                  (ssh_problems g)
                <-> unset_or_placeholder (get_or_none g "admin_username") = true).
  { unfold ssh_problems. cbv zeta. split.
    - intros Hi. destruct (unset_or_placeholder (get_or_none g "admin_username"));
        [reflexivity|]. cbn [app] in Hi.
      apply in_app_or in Hi as [Hi | Hi].
      + destruct (unset_or_placeholder _); [|contradiction].
        destruct Hi as [Hi | []]. discriminate Hi.
      + apply in_app_or in Hi as [Hi | Hi].
        * destruct (existsb _ _); [|contradiction].
          destruct Hi as [Hi | []]. discriminate Hi.
        * destruct (get_or_none g "allowed_ipv4"); try contradiction.
          destruct (_ && _); [|contradiction].
          destruct Hi as [Hi | []]. discriminate Hi.
    - intros ->. now left. }
  rewrite Hin, unset_or_placeholder_iff. unfold get_or_none.
  destruct (dict_lookup "admin_username" g) as [v|].
  - split.
    + split.
      * intros Hv. right. now exists v.
      * intros [Hn | (w & [= <-] & Hw)]; [discriminate Hn | exact Hw].
    + intros [= ->]. right. now left.
  - split.
    + split; [now left | intros _; now left].
    + discriminate.
Qed.

Lemma C3_admin_username_witness :
  validator_returns
    (VDict [ ("ssh", VDict [ ("admin_username", VStr "CHANGEME") ]) ]) = true
  /\ exists errors,
      validate_config
        (VDict [ ("ssh", VDict [ ("admin_username", VStr "CHANGEME") ]) ])
      = Ok errors
      /\ In "  - ssh.admin_username: not set or still CHANGEME" errors.
Proof.
  split; [reflexivity|].
  destruct (C3_admin_username
              (VDict [ ("ssh", VDict [ ("admin_username", VStr "CHANGEME") ]) ])
              eq_refl) as (errors & H1 & _ & H2).
  exists errors. split; [exact H1 | exact (H2 eq_refl)].
Defined.

(** C2 does not hold of the code: on a document whose [ssh.allowed_ipv4] is
    an integer the validator raises [AttributeError] (the integer has no
    [endswith]) and returns no list. *)
Theorem C2_validator_raises :
  validate_config integer_address_config = Raise AttributeError.
Proof. reflexivity. Qed.

(** ** [main] *)

(** C8 does not hold of the code: in normal mode, on a file that is found
    and parses, the run ends with exit status 1 when the validator raises;
    here on the document whose [ssh.allowed_ipv4] is the integer 10. *)
Theorem C8_uncaught_exit_status :
  validate convert_args = false
  /\ ended (main convert_args (Loaded integer_address_config))
     = Uncaught AttributeError
  /\ exit_status (main convert_args (Loaded integer_address_config)) = 1%Z
  /\ stdout (main convert_args (Loaded integer_address_config)) = [].
Proof. repeat split. Qed.




(** ** Reading back what [to_hcl_value] writes *)

Lemma span_app p (a rest : string) :
  all_chars p a = true -> stops p rest = true ->
  span p (a ++ rest) = (a, rest).
Proof.
  intros Ha Hr. induction a as [|c a IH]; cbn [String.append span].
  - destruct rest as [|c rest]; [reflexivity|]. cbn [stops] in Hr.
    apply negb_true_iff in Hr. cbn [span]. now rewrite Hr.
  - cbn [all_chars] in Ha. apply andb_true_iff in Ha as [Hc Ha].
    now rewrite Hc, IH.
Qed.

Lemma span_spec p (s a b : string) :
  span p s = (a, b) -> s = a ++ b /\ all_chars p a = true.
Proof.
  revert a b. induction s as [|c s IH]; intros a b; cbn [span].
  - intros [= <- <-]. now split.
  - destruct (p c) eqn:Hc.
    + destruct (span p s) as [a' b'] eqn:E. intros [= <- <-].
      destruct (IH a' b' eq_refl) as [-> Ha]. cbn [String.append all_chars].
      now rewrite Hc, Ha.
    + intros [= <- <-]. now split.
Qed.

Lemma all_chars_app p (a b : string) :
  all_chars p (a ++ b) = all_chars p a && all_chars p b.
Proof.
  induction a as [|c a IH]; [reflexivity|]. cbn [String.append all_chars].
  now rewrite IH, andb_assoc.
Qed.

Lemma all_chars_impl (p q : ascii -> bool) (s : string) :
  (forall c, p c = true -> q c = true) ->
  all_chars p s = true -> all_chars q s = true.
Proof.
  intros Hpq. induction s as [|c s IH]; [reflexivity|]. cbn [all_chars].
  rewrite !andb_true_iff. intros [Hc Hs]. auto.
Qed.

Lemma skip_stop p (s : string) : stops p s = true -> skip p s = s.
Proof.
  destruct s as [|c s]; [reflexivity|]. cbn [stops skip].
  intros H. apply negb_true_iff in H. now rewrite H.
Qed.

Lemma skip_spaces p n (s : string) :
  p " "%char = true -> skip p (spaces n ++ s) = skip p s.
Proof.
  intros Hp. induction n as [|n IH]; [reflexivity|].
  cbn [spaces String.append skip]. now rewrite Hp.
Qed.

(** Classes of characters, by enumeration. *)
Ltac by_chars c :=
  destruct c as [[] [] [] [] [] [] [] []]; vm_compute; intuition congruence.

Lemma digit_is_num_char c : is_digit c = true -> is_num_char c = true.
Proof. by_chars c. Qed.

Lemma digit_not_minus c : is_digit c = true -> Ascii.eqb c "-" = false.
Proof. by_chars c. Qed.

Lemma value_start_solid c :
  value_start c = true ->
  is_space c = false /\ is_blank c = false
  /\ Ascii.eqb c "]" = false /\ Ascii.eqb c "}" = false.
Proof. by_chars c. Qed.

Lemma number_start c :
  is_digit c || Ascii.eqb c "-" = true ->
  Ascii.eqb c dquote = false /\ Ascii.eqb c "[" = false
  /\ Ascii.eqb c "{" = false /\ is_ident_start c = false.
Proof. by_chars c. Qed.

Lemma delimited_stops rest :
  delimited rest = true ->
  stops is_num_char rest = true /\ stops is_ident_char rest = true
  /\ stops is_blank rest = true.
Proof.
  destruct rest as [|c rest]; [now repeat split|]. cbn [delimited stops].
  by_chars c.
Qed.

(** *** Quoted strings *)

Lemma starts_with_brace_escape (s rest : string) :
  starts_with_brace (escape s ++ String dquote rest) = starts_with_brace s.
Proof.
  destruct s as [|c s]; [reflexivity|]. cbn [escape]. unfold escape_char.
  destruct (Ascii.eqb_spec c backslash) as [-> | Hb]; [reflexivity|].
  destruct (Ascii.eqb_spec c dquote) as [-> | Hq]; reflexivity.
Qed.

Lemma read_string_escape (s rest : string) :
  plain_string s = true ->
  read_string (escape s ++ String dquote rest) = Some (s, rest).
Proof.
  induction s as [|c s IH]; intros Hp.
  - cbn. reflexivity.
  - cbn [plain_string] in Hp. rewrite !andb_true_iff, !negb_true_iff in Hp.
    destruct Hp as [[Hnl Htpl] Hs]. specialize (IH Hs).
    cbn [escape]. unfold escape_char.
    destruct (Ascii.eqb_spec c backslash) as [-> | Hb].
    + cbn [String.append read_string]. rewrite IH. reflexivity.
    + destruct (Ascii.eqb_spec c dquote) as [-> | Hq].
      * cbn [String.append read_string]. rewrite IH. reflexivity.
      * cbn [String.append read_string].
        apply Ascii.eqb_neq in Hb, Hq. rewrite Hq, Hnl, Hb.
        rewrite starts_with_brace_escape, Htpl, IH. reflexivity.
Qed.

(** *** Numerals *)

Lemma digits_then_spec (s r : string) :
  digits_then s = Some r ->
  exists c d, s = String c d ++ r /\ is_digit c = true
              /\ all_chars is_digit d = true.
Proof.
  unfold digits_then. destruct (span is_digit s) as [d r'] eqn:E.
  apply span_spec in E as [-> Hd]. destruct d as [|c d]; [discriminate|].
  intros [= <-]. cbn [all_chars] in Hd. apply andb_true_iff in Hd as [Hc Hd].
  now exists c, d.
Qed.

Lemma digits_num_chars (d : string) :
  all_chars is_digit d = true -> all_chars is_num_char d = true.
Proof. apply all_chars_impl, digit_is_num_char. Qed.

Lemma exponent_chars (r : string) :
  is_exponent r = true -> all_chars is_num_char r = true.
Proof.
  destruct r as [|e r']; [reflexivity|]. unfold is_exponent.
  destruct (Ascii.eqb e "e" || Ascii.eqb e "E") eqn:Ee; [|discriminate].
  assert (Hen : is_num_char e = true).
  { unfold is_num_char. apply orb_true_iff in Ee as [-> | ->];
      rewrite ?orb_true_r; reflexivity. }
  cbn [all_chars]. rewrite Hen. cbn [andb]. cbv zeta.
  destruct (digits_then _) as [[|]|] eqn:E3; try discriminate. intros _.
  apply digits_then_spec in E3 as (c3 & d3 & E3 & Hc3 & Hd3).
  rewrite string_app_nil_r in E3.
  assert (H3 : all_chars is_num_char (String c3 d3) = true).
  { cbn [all_chars].
    now rewrite (digit_is_num_char _ Hc3), (digits_num_chars _ Hd3). }
  destruct r' as [|sign r'']; [discriminate E3|].
  destruct (Ascii.eqb sign "+" || Ascii.eqb sign "-") eqn:Es.
  - subst r''. cbn [all_chars]. cbn [all_chars] in H3. rewrite H3.
    unfold is_num_char. apply orb_true_iff in Es as [-> | ->];
      rewrite ?orb_true_r; reflexivity.
  - rewrite E3. exact H3.
Qed.

Lemma unsigned_numeral_chars (s : string) :
  is_unsigned_numeral s = true ->
  exists c t, s = String c t /\ is_digit c = true
              /\ all_chars is_num_char t = true.
Proof.
  unfold is_unsigned_numeral.
  destruct (digits_then s) as [r|] eqn:E1; [|discriminate].
  apply digits_then_spec in E1 as (c & d & -> & Hc & Hd).
  apply digits_num_chars in Hd. cbv zeta. intros H. exists c, (d ++ r).
  split; [reflexivity|]. split; [exact Hc|]. rewrite all_chars_app, Hd.
  cbn [andb]. destruct r as [|c2 r2]; [reflexivity|].
  destruct (Ascii.eqb c2 ".") eqn:Edot.
  - destruct (digits_then r2) as [r3|] eqn:E2; [|discriminate].
    apply digits_then_spec in E2 as (c4 & d4 & -> & Hc4 & Hd4).
    cbn [all_chars]. unfold is_num_char at 1. rewrite Edot.
    rewrite orb_true_r. cbn [orb andb String.append all_chars].
    rewrite (digit_is_num_char _ Hc4), all_chars_app,
      (digits_num_chars _ Hd4). cbn [andb]. now apply exponent_chars.
  - now apply exponent_chars.
Qed.

(** A numeral starts with a digit or a minus sign and is made of the
    characters of numerals. *)
Lemma numeral_shape (t : string) :
  is_numeral t = true ->
  exists c t', t = String c t'
               /\ (is_digit c || Ascii.eqb c "-") = true
               /\ all_chars is_num_char t = true.
Proof.
  unfold is_numeral. destruct t as [|c t]; [discriminate|].
  destruct (Ascii.eqb c "-") eqn:Em.
  - intros H. apply unsigned_numeral_chars in H as (c' & t' & -> & Hc & Ht).
    exists c, (String c' t'). split; [reflexivity|].
    rewrite Em, orb_true_r. split; [reflexivity|].
    cbn [all_chars]. unfold is_num_char at 1. rewrite Em, orb_true_r.
    cbn [andb]. now rewrite (digit_is_num_char _ Hc), Ht.
  - intros H.
    apply unsigned_numeral_chars in H as (c' & t' & [= <- <-] & Hc & Ht).
    exists c, t. split; [reflexivity|]. rewrite Hc. split; [reflexivity|].
    cbn [all_chars]. now rewrite (digit_is_num_char _ Hc), Ht.
Qed.

(** The decimal numeral of an integer. *)
Lemma uint_digits (d : Decimal.uint) :
  all_chars is_digit (NilEmpty.string_of_uint d) = true.
Proof. induction d; cbn [NilEmpty.string_of_uint all_chars]; auto. Qed.

Lemma uint_numeral (d : Decimal.uint) :
  exists c t, NilZero.string_of_uint d = String c t
              /\ is_digit c = true /\ all_chars is_digit t = true.
Proof.
  destruct d; cbn [NilZero.string_of_uint NilEmpty.string_of_uint];
    try (eexists _, _; split; [reflexivity|]; split;
         [reflexivity | apply uint_digits]).
  exists "0"%char, "". now repeat split.
Qed.

Lemma digits_numeral c (t : string) :
  is_digit c = true -> all_chars is_digit t = true ->
  is_numeral (String c t) = true /\ is_numeral (String "-" (String c t)) = true.
Proof.
  intros Hc Ht.
  assert (E : is_unsigned_numeral (String c t) = true).
  { unfold is_unsigned_numeral, digits_then.
    rewrite <- (string_app_nil_r (String c t)) at 1.
    rewrite span_app; [reflexivity | | reflexivity].
    cbn [all_chars]. now rewrite Hc, Ht. }
  unfold is_numeral. rewrite (digit_not_minus _ Hc).
  change (Ascii.eqb "-" "-") with true. cbv iota. now rewrite E.
Qed.

Lemma str_int_numeral (z : Z) : is_numeral (str_int z) = true.
Proof.
  unfold str_int.
  destruct (Z.to_int z) as [d | d]; cbn [NilZero.string_of_int];
    destruct (uint_numeral d) as (c & t & -> & Hc & Ht);
    now apply digits_numeral.
Qed.

(** *** Texts of values *)

Lemma string_length_app (a b : string) :
  String.length (a ++ b) = String.length a + String.length b.
Proof. induction a; cbn [String.append String.length]; lia. Qed.

Lemma concat_flat sep (ls : list string) :
  ls <> [] ->
  String.concat sep ls ++ sep = flat (map (fun l => l ++ sep) ls).
Proof.
  induction ls as [|l ls IH]; [congruence|]. intros _.
  destruct ls as [|l' ls].
  - cbn. now rewrite string_app_nil_r.
  - change (flat (map (fun l => l ++ sep) (l :: l' :: ls)))
      with ((l ++ sep) ++ flat (map (fun l => l ++ sep) (l' :: ls))).
    rewrite concat_cons by discriminate. rewrite <- IH by discriminate.
    now rewrite !string_app_assoc.
Qed.

Lemma dict_text kv items indent :
  to_hcl_value (VDict (kv :: items)) indent
  = String "{"
      (String newline
         (flat (map (field_text (indent + 2) (indent + 2)) (kv :: items))
          ++ spaces indent ++ "}")).
Proof.
  cbn [to_hcl_value].
  set (lines := map _ (kv :: items)).
  assert (H : String.concat nl lines ++ nl
              = flat (map (field_text (indent + 2) (indent + 2)) (kv :: items))).
  { rewrite concat_flat by discriminate. unfold lines. rewrite map_map.
    f_equal. apply map_ext. intros [k v]. unfold field_text.
    now rewrite !string_app_assoc. }
  rewrite <- H. now rewrite !string_app_assoc.
Qed.

Lemma value_text_start (v : value) (indent : nat) :
  readable v = true ->
  exists c t, to_hcl_value v indent = String c t /\ value_start c = true.
Proof.
  assert (Hn : forall s, is_numeral s = true ->
                 exists c t, s = String c t /\ value_start c = true).
  { intros s Hs. destruct (numeral_shape s Hs) as (c & t & -> & Hc & _).
    exists c, t. split; [reflexivity|]. unfold value_start. now rewrite Hc. }
  destruct v as [|[]| z | f | s | [|x items] | [|kv items]]; intros Hr;
    try (eexists _, _; split; [reflexivity | reflexivity]).
  - apply Hn, str_int_numeral.
  - apply Hn, Hr.
Qed.

(** *** The reader on the text of a value *)

Lemma read_items_blank fuel (s : string) :
  read_items fuel (String " " s) = read_items fuel s.
Proof. destruct fuel; reflexivity. Qed.

Lemma read_fields_newline fuel (s : string) :
  read_fields fuel (String newline s) = read_fields fuel s.
Proof. destruct fuel; reflexivity. Qed.

Lemma read_items_step n c (s' : string) item r :
  value_start c = true ->
  read_value n (String c s') = Some (item, r) ->
  read_items (S n) (String c s')
  = match skip is_space r with
    | String d rest' =>
        if Ascii.eqb d "," then
          match read_items n rest' with
          | Some (items, rest'') => Some (item :: items, rest'')
          | None => None
          end
        else if Ascii.eqb d "]" then Some ([item], rest')
        else None
    | EmptyString => None
    end.
Proof.
  intros Hc Hv. destruct (value_start_solid c Hc) as (Hs & _ & Hb & _).
  cbn [read_items skip]. rewrite Hs, Hb, Hv. reflexivity.
Qed.

Lemma read_items_text (items : list value) :
  Forall reads_back items ->
  forallb readable items = true -> items <> [] ->
  forall indent fuel rest,
    String.length
      (String.concat ", " (map (fun item => to_hcl_value item indent) items))
    < fuel ->
    read_items fuel
      (String.concat ", " (map (fun item => to_hcl_value item indent) items)
       ++ String "]" rest)
    = Some (map reads_as items, rest).
Proof.
  induction 1 as [|x items Hx Hitems IH]; [congruence|].
  intros Hr _ indent fuel rest Hf. cbn [forallb] in Hr.
  apply andb_true_iff in Hr as [Hrx Hri].
  destruct fuel as [|n]; [lia|].
  destruct (value_text_start x indent Hrx) as (c & t & E & Hc).
  destruct items as [|y items].
  - cbn [map String.concat] in Hf |- *.
    assert (H1 := Hx Hrx indent n (String "]" rest)).
    rewrite E in H1 |- *. cbn [String.append] in H1 |- *.
    rewrite (read_items_step n c _ (reads_as x) (String "]" rest) Hc).
    + reflexivity.
    + apply H1; [|reflexivity]. rewrite E in Hf. cbn [String.length] in *. lia.
  - rewrite map_cons in Hf |- *.
    rewrite concat_cons in Hf |- * by discriminate.
    rewrite !string_app_assoc. rewrite !string_length_app in Hf.
    set (C := String.concat ", " _) in *.
    assert (H1 := Hx Hrx indent n (", " ++ C ++ String "]" rest)).
    rewrite E in H1, Hf |- *. cbn [String.append String.length] in H1, Hf |- *.
    rewrite (read_items_step n c _ (reads_as x)
               (String "," (String " " (C ++ String "]" rest))) Hc).
    + rewrite skip_stop by reflexivity. rewrite Ascii.eqb_refl.
      rewrite read_items_blank. unfold C. rewrite IH.
      * reflexivity.
      * exact Hri.
      * discriminate.
      * fold C. lia.
    + apply H1; [lia | reflexivity].
Qed.

Lemma identifier_shape (k : string) :
  is_identifier k = true ->
  exists c k', k = String c k' /\ is_ident_start c = true
               /\ all_chars is_ident_char k = true.
Proof.
  destruct k as [|c k']; [discriminate|]. cbn [is_identifier].
  rewrite !andb_true_iff. intros [[Hc Ha] _]. now exists c, k'.
Qed.

Lemma ident_start_solid c :
  is_ident_start c = true ->
  is_space c = false /\ Ascii.eqb c "}" = false.
Proof. by_chars c. Qed.

Lemma read_fields_step n j (k : string) c (t : string) item (rest : string) :
  is_identifier k = true -> value_start c = true ->
  read_value n (String c (t ++ String newline rest))
  = Some (item, String newline rest) ->
  read_fields (S n)
    (spaces j ++ k
     ++ String " " (String "=" (String " "
          (String c (t ++ String newline rest)))))
  = match read_fields n rest with
    | Some (items, rest') => Some ((k, item) :: items, rest')
    | None => None
    end.
Proof.
  intros Hk Hc Hv. cbn [read_fields]. rewrite skip_spaces by reflexivity.
  destruct (identifier_shape k Hk) as (c0 & k' & E & Hc0 & Hall).
  destruct (ident_start_solid c0 Hc0) as [Hs Hb].
  destruct (value_start_solid c Hc) as (_ & Hbl & _).
  rewrite E at 1. cbn [String.append skip]. rewrite Hs, Hb.
  match goal with
  | |- context [span is_ident_char (String c0 (k' ++ ?X))] =>
      change (String c0 (k' ++ X)) with (String c0 k' ++ X)
  end.
  rewrite <- E. rewrite span_app by (first [exact Hall | reflexivity]).
  rewrite Hk.
  change (skip is_blank
            (String " " (String "=" (String " "
               (String c (t ++ String newline rest))))))
    with (String "=" (String " " (String c (t ++ String newline rest)))).
  cbv beta iota. rewrite Ascii.eqb_refl.
  change (skip is_blank (String " " (String c (t ++ String newline rest))))
    with (skip is_blank (String c (t ++ String newline rest))).
  rewrite skip_stop by (cbn [stops]; now rewrite Hbl).
  rewrite Hv. rewrite skip_stop by reflexivity.
  cbv beta iota. rewrite Ascii.eqb_refl. reflexivity.
Qed.

Lemma read_fields_text (items : list (string * value)) :
  Forall (fun kv => reads_back (snd kv)) items ->
  forallb (fun kv => is_identifier (fst kv) && readable (snd kv)) items = true ->
  forall j i i0 fuel rest,
    String.length (flat (map (field_text j i) items)) < fuel ->
    read_fields fuel
      (flat (map (field_text j i) items) ++ spaces i0 ++ String "}" rest)
    = Some (map (fun kv => (fst kv, reads_as (snd kv))) items, rest).
Proof.
  induction 1 as [|[k v] items Hv Hitems IH]; intros Hr j i i0 fuel rest Hf.
  - destruct fuel as [|n]; [cbn in Hf; lia|].
    cbn [map flat fold_right String.append read_fields].
    rewrite skip_spaces by reflexivity. reflexivity.
  - cbn [forallb fst snd] in Hr. rewrite !andb_true_iff in Hr.
    destruct Hr as [[Hk Hrv] Hri]. cbn [snd] in Hv.
    destruct fuel as [|n]; [lia|].
    cbn [map flat fold_right] in Hf |- *.
    fold (flat (map (field_text j i) items)) in Hf |- *.
    set (F := flat (map (field_text j i) items)) in *.
    unfold field_text in Hf |- *. cbn [fst snd] in Hf |- *.
    unfold nl in Hf |- *.
    rewrite !string_length_app in Hf. rewrite !string_app_assoc.
    cbn [String.append].
    destruct (value_text_start v i Hrv) as (c & t & E & Hc).
    assert (H1 := Hv Hrv i n (String newline (F ++ spaces i0 ++ String "}" rest))).
    rewrite E in H1, Hf |- *. cbn [String.append String.length] in H1, Hf |- *.
    rewrite (read_fields_step n j k c t (reads_as v)
               (F ++ spaces i0 ++ String "}" rest) Hk Hc).
    + unfold F. rewrite IH; [reflexivity | exact Hri |]. fold F. lia.
    + apply H1; [lia | reflexivity].
Qed.

(** Every readable value is read back. *)
Lemma read_value_text (v : value) : reads_back v.
Proof.
  induction v as [| b | z | f | s | items IH | items IH] using value_ind;
    unfold reads_back; intros Hr indent fuel rest Hf Hd;
    destruct (delimited_stops rest Hd) as (Hnum & Hid & _).
  - destruct fuel as [|n]; [cbn in Hf; lia|]. reflexivity.
  - destruct fuel as [|n]; [destruct b; cbn in Hf; lia|].
    destruct b; cbn [to_hcl_value].
    + change (read_value (S n) ("true" ++ rest))
        with (read_keyword ("true" ++ rest)).
      unfold read_keyword. now rewrite span_app.
    + change (read_value (S n) ("false" ++ rest))
        with (read_keyword ("false" ++ rest)).
      unfold read_keyword. now rewrite span_app.
  - cbn [to_hcl_value reads_as] in *.
    destruct (numeral_shape _ (str_int_numeral z)) as (c & t & E & Hc & Hall).
    destruct (number_start c Hc) as (Hq & Hb & Hbr & Hi).
    destruct fuel as [|n]; [rewrite E in Hf; cbn in Hf; lia|].
    rewrite E at 1. cbn [String.append read_value]. rewrite Hq, Hb, Hbr, Hi.
    change (String c (t ++ rest)) with (String c t ++ rest). rewrite <- E.
    unfold read_number. rewrite span_app by assumption.
    now rewrite str_int_numeral.
  - cbn [to_hcl_value reads_as readable] in *.
    destruct (numeral_shape _ Hr) as (c & t & E & Hc & Hall).
    destruct (number_start c Hc) as (Hq & Hb & Hbr & Hi).
    destruct fuel as [|n]; [rewrite E in Hf; cbn in Hf; lia|].
    rewrite E at 1. cbn [String.append read_value]. rewrite Hq, Hb, Hbr, Hi.
    change (String c (t ++ rest)) with (String c t ++ rest). rewrite <- E.
    unfold read_number. rewrite span_app by assumption.
    now rewrite Hr.
  - destruct fuel as [|n]; [cbn in Hf; lia|].
    cbn [to_hcl_value reads_as readable] in *. rewrite replace_twice_escape.
    unfold quoted. cbn [String.append read_value].
    rewrite string_app_assoc. cbn [String.append].
    change (Ascii.eqb dquote dquote) with true. cbv iota.
    now rewrite read_string_escape.
  - cbn [readable reads_as] in *. destruct items as [|x items].
    + destruct fuel as [|[|n]]; [cbn in Hf; lia | cbn in Hf; lia |].
      reflexivity.
    + cbn [to_hcl_value] in Hf |- *.
      destruct fuel as [|n]; [cbn in Hf; lia|].
      cbn [String.append String.length] in Hf |- *.
      rewrite string_length_app in Hf. cbn [String.length] in Hf.
      rewrite string_app_assoc. cbn [String.append read_value].
      change (Ascii.eqb "[" dquote) with false.
      change (Ascii.eqb "[" "[") with true. cbv iota.
      rewrite (read_items_text (x :: items) IH Hr) by (discriminate || lia).
      reflexivity.
  - cbn [readable reads_as] in *. destruct items as [|kv items].
    + destruct fuel as [|[|n]]; [cbn in Hf; lia | cbn in Hf; lia |].
      reflexivity.
    + rewrite dict_text in Hf |- *.
      destruct fuel as [|n]; [cbn in Hf; lia|].
      cbn [String.append String.length] in Hf |- *.
      rewrite string_length_app in Hf.
      rewrite !string_app_assoc. cbn [String.append read_value].
      change (Ascii.eqb "{" dquote) with false.
      change (Ascii.eqb "{" "[") with false.
      change (Ascii.eqb "{" "{") with true. cbv iota.
      rewrite read_fields_newline.
      rewrite (read_fields_text (kv :: items) IH Hr) by lia.
      reflexivity.
Qed.

Lemma str_int_value (z : Z) : int_of_numeral (str_int z) = Some z.
Proof.
  unfold int_of_numeral, str_int. rewrite NilZero.isi.
  - now rewrite DecimalZ.of_to.
  - destruct z; cbn; try discriminate; intros [= H];
      now apply DecimalPos.Unsigned.to_uint_nonnil in H.
  - destruct z; cbn; try discriminate; intros [= H];
      now apply DecimalPos.Unsigned.to_uint_nonnil in H.
Qed.

(** C1, as stated, fails: null and the empty string have the same text, and
    the text is read as the empty string, not as null.  The texts of a
    string with a line break, of a string with a template opener, of a
    mapping whose key is not an identifier and of an infinite float are not
    literals at all. *)
Lemma C1_counterexample :
  to_hcl_value VNone 0 = to_hcl_value (VStr "") 0
  /\ parse_literal (to_hcl_value VNone 0) = Some (HString "")
  /\ parse_literal (to_hcl_value (VStr nl) 0) = None
  /\ parse_literal (to_hcl_value (VStr "${x}") 0) = None
  /\ parse_literal (to_hcl_value (VDict [("a b", VInt 1)]) 0) = None
  /\ parse_literal (to_hcl_value (VFloat float_inf) 0) = None.
Proof. repeat split. Qed.

(** C1, amended: for every value of the accepted universe whose strings hold
    no line break and no template opener, whose mapping keys are identifiers
    and whose floats print as numerals, reading the text of [to_hcl_value] as
    a literal gives the value back, with null read as the empty string and
    a number as its numeral; the numeral of an integer denotes the
    integer. *)
Theorem C1_round_trip (v : value) (indent : nat) :
  readable v = true ->
  parse_literal (to_hcl_value v indent) = Some (reads_as v)
  /\ (forall z, v = VInt z ->
                int_of_numeral (to_hcl_value v indent) = Some z).
Proof.
  intros Hr. split.
  - unfold parse_literal.
    pose proof (read_value_text v Hr indent
                  (String.length (to_hcl_value v indent)) ""
                  (Nat.le_refl _) eq_refl) as H.
    rewrite string_app_nil_r in H. now rewrite H.
  - intros z ->. apply str_int_value.
Qed.

Lemma C1_round_trip_witness :
  readable nested_value = true
  /\ parse_literal (to_hcl_value nested_value 0) = Some (reads_as nested_value).
Proof.
  split; [reflexivity|]. exact (proj1 (C1_round_trip nested_value 0 eq_refl)).
Defined.

(* ================================================================= *)
(** * Further properties *)

(** ** More on [to_hcl_value] *)

Lemma map_agree {A B : Type} (f g : A -> B) (l : list A) :
  Forall (fun a => f a = g a) l -> map f l = map g l.
Proof. induction 1; cbn [map]; congruence. Qed.

(** X2: the indentation only matters for mappings with entries: a value in
    which every mapping is empty has the same text at every indentation. *)
Theorem to_hcl_value_indent (v : value) (i j : nat) :
  mapping_free v = true -> to_hcl_value v i = to_hcl_value v j.
Proof.
  revert i j. induction v as [| | | | | items IH | items IH] using value_ind;
    intros i j Hv; try reflexivity.
  - cbn [to_hcl_value]. destruct items as [|x items]; [reflexivity|].
    rewrite (map_agree (fun item => to_hcl_value item (i + 2))
               (fun item => to_hcl_value item (j + 2)) (x :: items));
      [reflexivity|].
    cbn [mapping_free] in Hv.
    rewrite forallb_forall in Hv. rewrite Forall_forall in IH |- *.
    intros y Hy. apply IH; [exact Hy | now apply Hv].
  - destruct items; [reflexivity | discriminate].
Qed.

Lemma to_hcl_value_indent_witness :
  mapping_free (VList [VInt 1; VList [VStr "a"; VDict []]]) = true
  /\ to_hcl_value (VList [VInt 1; VList [VStr "a"; VDict []]]) 0
     = to_hcl_value (VList [VInt 1; VList [VStr "a"; VDict []]]) 6.
Proof.
  split; [reflexivity|].
  exact (to_hcl_value_indent (VList [VInt 1; VList [VStr "a"; VDict []]])
           0 6 eq_refl).
Defined.

Lemma count_char_escape c (s : string) :
  c <> backslash -> c <> dquote ->
  count_char c (escape s) = count_char c s.
Proof.
  intros Hb Hq. induction s as [|d s IH]; [reflexivity|].
  cbn [escape]. rewrite count_char_app, IH. unfold escape_char.
  destruct (Ascii.eqb_spec d backslash) as [-> | Hdb].
  - cbn [count_char]. apply Ascii.eqb_neq in Hb.
    rewrite Ascii.eqb_sym in Hb. now rewrite Hb.
  - destruct (Ascii.eqb_spec d dquote) as [-> | Hdq].
    + cbn [count_char]. apply Ascii.eqb_neq in Hb, Hq.
      rewrite Ascii.eqb_sym in Hb, Hq. now rewrite Hb, Hq.
    + cbn [count_char]. lia.
Qed.

Lemma digits_line_free (s : string) :
  all_chars is_num_char s = true -> count_char newline s = 0.
Proof.
  induction s as [|c s IH]; [reflexivity|]. cbn [all_chars count_char].
  rewrite andb_true_iff. intros [Hc Hs]. rewrite (IH Hs).
  destruct (Ascii.eqb_spec c newline) as [-> | _]; [discriminate Hc | reflexivity].
Qed.

Lemma list_text_line_breaks (items : list value) (i : nat) :
  count_char newline (to_hcl_value (VList items) i)
  = list_sum (map (fun item => count_char newline (to_hcl_value item (i + 2)))
                items).
Proof.
  destruct items as [|x items]; [reflexivity|].
  cbn [to_hcl_value]. rewrite !count_char_app.
  rewrite count_char_concat by reflexivity. rewrite map_map.
  change (count_char newline "[") with 0. change (count_char newline "]") with 0.
  lia.
Qed.

Lemma list_sum_zero (l : list nat) :
  list_sum l = 0 <-> Forall (fun n => n = 0) l.
Proof.
  induction l as [|n l IH]; [split; constructor|].
  cbn [list_sum fold_right]. fold (list_sum l). split.
  - intros H. constructor; [lia|]. apply IH. lia.
  - intros H. inversion H as [|? ? Hn Hl]; subst. apply IH in Hl. lia.
Qed.

Lemma str_int_line_free (z : Z) : count_char newline (str_int z) = 0.
Proof.
  destruct (numeral_shape _ (str_int_numeral z)) as (_ & _ & _ & _ & H).
  now apply digits_line_free.
Qed.

(** X3: the text of a value is a single line exactly when its strings and
    float texts have no line break and every mapping in it is empty:
    sequences are written on one line whatever their length, mappings with
    entries never are. *)
Theorem to_hcl_value_single_line (v : value) (i : nat) :
  count_char newline (to_hcl_value v i) = 0 <-> single_line v = true.
Proof.
  revert i. induction v as [| b | z | f | s | items IH | items IH] using value_ind;
    intros i.
  - split; reflexivity.
  - destruct b; split; reflexivity.
  - split; [reflexivity | intros _; apply str_int_line_free].
  - cbn [to_hcl_value single_line]. unfold line_free.
    now rewrite Nat.eqb_eq.
  - cbn [to_hcl_value single_line]. rewrite replace_twice_escape.
    unfold quoted, line_free. rewrite Nat.eqb_eq.
    cbn [count_char]. rewrite count_char_app, count_char_escape by discriminate.
    change (Ascii.eqb dquote newline) with false. cbn [count_char].
    change (Ascii.eqb dquote newline) with false. split; lia.
  - rewrite list_text_line_breaks, list_sum_zero. cbn [single_line].
    rewrite forallb_forall, Forall_map, !Forall_forall.
    rewrite Forall_forall in IH. split.
    + intros H x Hx. apply (IH x Hx (i + 2)). now apply H.
    + intros H x Hx. apply (IH x Hx (i + 2)). now apply H.
  - destruct items as [|kv items]; [split; reflexivity|].
    cbn [to_hcl_value single_line]. unfold nl. cbn [String.append count_char].
    change (Ascii.eqb "{" newline) with false.
    rewrite Ascii.eqb_refl. split; [lia | discriminate].
Qed.

Lemma escape_char_shape (c : ascii) :
  (c = backslash /\ escape_char c = String backslash (String backslash ""))
  \/ (c = dquote /\ escape_char c = String backslash (String dquote ""))
  \/ (c <> backslash /\ c <> dquote /\ escape_char c = String c "").
Proof.
  unfold escape_char.
  destruct (Ascii.eqb_spec c backslash) as [-> | Hb]; [now left|].
  destruct (Ascii.eqb_spec c dquote) as [-> | Hq]; [right; now left|].
  right; right. now repeat split.
Qed.

Lemma escape_inj (s t : string) : escape s = escape t -> s = t.
Proof.
  revert t. induction s as [|c s IH]; intros [|d t] H.
  - reflexivity.
  - cbn [escape] in H.
    destruct (escape_char_shape d) as [[_ E] | [[_ E] | (_ & _ & E)]];
      rewrite E in H; discriminate H.
  - cbn [escape] in H.
    destruct (escape_char_shape c) as [[_ E] | [[_ E] | (_ & _ & E)]];
      rewrite E in H; discriminate H.
  - cbn [escape] in H.
    destruct (escape_char_shape c) as [[-> Ec] | [[-> Ec] | (Hcb & Hcq & Ec)]];
      destruct (escape_char_shape d) as [[-> Ed] | [[-> Ed] | (Hdb & Hdq & Ed)]];
      rewrite ?Ec, ?Ed in H; cbn [String.append] in H;
      try (injection H as H; f_equal; now apply IH);
      try discriminate H;
      try (injection H as Hc H; congruence).
    injection H as Hc H. subst d. f_equal. now apply IH.
Qed.

Lemma string_app_inv_tail (a b c : string) : a ++ c = b ++ c -> a = b.
Proof.
  intros H.
  assert (L : String.length a = String.length b).
  { apply (f_equal String.length) in H. rewrite !string_length_app in H. lia. }
  revert b H L. induction a as [|x a IH]; intros [|y b] H L;
    try discriminate L; [reflexivity|].
  cbn [String.append] in H. injection H as -> H. f_equal. apply IH; [exact H|].
  cbn [String.length] in L. lia.
Qed.

(** X4: distinct strings have distinct literals, at any indentation: the
    escaping loses nothing.  The literal is longer than the string by its
    two quotes and by one character for each backslash and each double
    quote. *)
Theorem to_hcl_value_string_injective (s t : string) (i j : nat) :
  (to_hcl_value (VStr s) i = to_hcl_value (VStr t) j <-> s = t)
  /\ String.length (to_hcl_value (VStr s) i)
     = String.length s + count_char backslash s + count_char dquote s + 2.
Proof.
  split.
  - split; [|now intros ->].
    cbn [to_hcl_value]. rewrite !replace_twice_escape. unfold quoted.
    intros [= H]. apply string_app_inv_tail in H. now apply escape_inj.
  - cbn [to_hcl_value]. rewrite replace_twice_escape. unfold quoted.
    cbn [String.length]. rewrite string_length_app. cbn [String.length].
    assert (E : String.length (escape s)
                = String.length s + count_char backslash s + count_char dquote s).
    { induction s as [|c s IH]; [reflexivity|].
      cbn [escape String.length count_char]. rewrite string_length_app, IH.
      destruct (escape_char_shape c) as [[-> E] | [[-> E] | (Hb & Hq & E)]];
        rewrite E; cbn [String.length].
      - rewrite Ascii.eqb_refl. change (Ascii.eqb backslash dquote) with false.
        cbv iota. lia.
      - rewrite Ascii.eqb_refl. change (Ascii.eqb dquote backslash) with false.
        cbv iota. lia.
      - apply Ascii.eqb_neq in Hb, Hq. rewrite Hb, Hq. lia. }
    lia.
Qed.

Lemma str_int_inj (z z' : Z) : str_int z = str_int z' -> z = z'.
Proof.
  intros H. pose proof (str_int_value z) as E. rewrite H, str_int_value in E.
  congruence.
Qed.

Lemma reads_as_inj (v : value) :
  exact_value v = true ->
  forall w, exact_value w = true -> reads_as v = reads_as w -> v = w.
Proof.
  induction v as [| b | z | f | s | items IH | items IH] using value_ind;
    intros Hv w Hw H; try discriminate Hv;
    destruct w as [| b' | z' | f' | s' | items' | items']; try discriminate Hw;
    cbn [reads_as] in H; try discriminate H.
  - now injection H as ->.
  - injection H as H. f_equal. now apply str_int_inj.
  - now injection H as ->.
  - injection H as H. f_equal. cbn [exact_value] in Hv, Hw.
    revert items' Hw H. induction IH as [|x items Hx _ IHitems];
      intros [|y items'] Hw H; try discriminate H; [reflexivity|].
    cbn [forallb] in Hv, Hw. apply andb_true_iff in Hv as [Hvx Hvi].
    apply andb_true_iff in Hw as [Hwy Hwi]. cbn [map] in H.
    injection H as Hxy H. f_equal; [now apply Hx | now apply IHitems].
  - injection H as H. f_equal. cbn [exact_value] in Hv, Hw.
    revert items' Hw H. induction IH as [|[k x] items Hx _ IHitems];
      intros [|[k' y] items'] Hw H; try discriminate H; [reflexivity|].
    cbn [forallb snd] in Hv, Hw. apply andb_true_iff in Hv as [Hvx Hvi].
    apply andb_true_iff in Hw as [Hwy Hwi]. cbn [map fst snd] in H.
    injection H as Hk Hxy H. subst k'. cbn [snd] in Hx.
    f_equal; [f_equal; now apply Hx | now apply IHitems].
Qed.

(** X5: on values without null and floats whose strings are plain and whose
    keys are identifiers, [to_hcl_value] is injective: two such values with
    the same text, at any indentations, are the same value. *)
Theorem to_hcl_value_injective (v w : value) (i j : nat) :
  readable v = true -> exact_value v = true ->
  readable w = true -> exact_value w = true ->
  to_hcl_value v i = to_hcl_value w j -> v = w.
Proof.
  intros Rv Ev Rw Ew H. apply (reads_as_inj v Ev w Ew).
  pose proof (read_value_text v Rv i (String.length (to_hcl_value v i)) ""
                (Nat.le_refl _) eq_refl) as Hv.
  pose proof (read_value_text w Rw j (String.length (to_hcl_value w j)) ""
                (Nat.le_refl _) eq_refl) as Hw.
  rewrite H in Hv. rewrite Hv in Hw. congruence.
Qed.

Lemma to_hcl_value_injective_witness :
  readable (VList [VInt 1; VStr "a"]) = true
  /\ exact_value (VList [VInt 1; VStr "a"]) = true
  /\ to_hcl_value (VList [VInt 1; VStr "a"]) 0
     = to_hcl_value (VList [VInt 1; VStr "a"]) 4
  /\ VList [VInt 1; VStr "a"] = VList [VInt 1; VStr "a"].
Proof.
  do 3 (split; [reflexivity|]).
  exact (to_hcl_value_injective (VList [VInt 1; VStr "a"])
           (VList [VInt 1; VStr "a"]) 0 4 eq_refl eq_refl eq_refl eq_refl
           eq_refl).
Defined.

(** ** More on [yaml_to_tfvars] *)

Lemma append_if_set_not_mapping grp key ident lines :
  (forall g, grp <> VDict g) ->
  append_if_set grp key ident lines = Raise AttributeError.
Proof.
  intros H. destruct grp; try reflexivity. now contradiction (H items).
Qed.

Lemma group_not_mapping_inv d name :
  group_is_mapping d name = false ->
  exists grp, dict_lookup name d = Some grp /\ forall g, grp <> VDict g.
Proof.
  unfold group_is_mapping. destruct (dict_lookup name d) as [grp|];
    [|discriminate].
  intros H. exists grp. split; [reflexivity|]. intros g ->. discriminate H.
Qed.

Ltac group_raises H :=
  let grp := fresh "grp" in
  let Hg := fresh "Hg" in
  let Hn := fresh "Hn" in
  destruct (group_not_mapping_inv _ _ H) as (grp & Hg & Hn);
  unfold seq at 1; rewrite if_group_dict, Hg;
  unfold seq at 1; rewrite (append_if_set_not_mapping _ _ _ _ Hn);
  reflexivity.

Lemma tfvars_lines_not_document d :
  config_document (VDict d) = false ->
  tfvars_lines (VDict d) = Raise AttributeError.
Proof.
  intros H. cbn [config_document] in H. unfold tfvars_lines.
  destruct (group_is_mapping d "azure") eqn:Ha; [|group_raises Ha].
  erewrite seq_ok by (apply azure_group; exact Ha).
  destruct (group_is_mapping d "ssh") eqn:Hs; [|group_raises Hs].
  erewrite seq_ok by (apply ssh_group; exact Hs).
  destruct (group_is_mapping d "network") eqn:Hn; [|group_raises Hn].
  erewrite seq_ok by (apply network_group; exact Hn).
  destruct (group_is_mapping d "wireguard") eqn:Hw; [|group_raises Hw].
  discriminate H.
Qed.

(** X6: what [yaml_to_tfvars] does on every loaded value.  On a mapping
    it returns the lines of the document when the groups azure, ssh, network
    and wireguard are mappings, and raises [AttributeError] otherwise.  On a
    sequence or a string it returns the bare header, unless a group name is
    an item of the sequence or occurs in the string, where the subscript
    raises [TypeError]; on null, a boolean or a number the first membership
    test raises [TypeError].  It never raises [KeyError]. *)
Theorem tfvars_lines_outcome (config : value) :
  match config with
  | VDict _ =>
      tfvars_lines config
      = if config_document config then Ok (document_lines config)
        else Raise AttributeError
  | VList items =>
      tfvars_lines config
      = if existsb (fun name => existsb (fun x => py_eq_str x name) items)
             group_names
        then Raise TypeError else Ok header
  | VStr s =>
      tfvars_lines config
      = if existsb (fun name => str_contains name s) group_names
        then Raise TypeError else Ok header
  | _ => tfvars_lines config = Raise TypeError
  end
  /\ tfvars_lines config <> Raise KeyError.
Proof.
  assert (H : match config with
              | VDict _ =>
                  tfvars_lines config
                  = if config_document config then Ok (document_lines config)
                    else Raise AttributeError
              | VList items =>
                  tfvars_lines config
                  = if existsb
                         (fun name => existsb (fun x => py_eq_str x name) items)
                         group_names
                    then Raise TypeError else Ok header
              | VStr s =>
                  tfvars_lines config
                  = if existsb (fun name => str_contains name s) group_names
                    then Raise TypeError else Ok header
              | _ => tfvars_lines config = Raise TypeError
              end).
  { destruct config as [| b | z | f | s | items | d]; try reflexivity.
    - unfold tfvars_lines, seq, if_group, group_names.
      cbn [py_in py_getitem bind existsb].
      destruct (str_contains "azure" s); [reflexivity|].
      destruct (str_contains "ssh" s); [reflexivity|].
      destruct (str_contains "network" s); [reflexivity|].
      destruct (str_contains "wireguard" s); [reflexivity|].
      destruct (str_contains "tags" s); reflexivity.
    - unfold tfvars_lines, seq, if_group, group_names.
      cbn [py_in py_getitem bind existsb].
      destruct (existsb (fun x => py_eq_str x "azure") items); [reflexivity|].
      destruct (existsb (fun x => py_eq_str x "ssh") items); [reflexivity|].
      destruct (existsb (fun x => py_eq_str x "network") items); [reflexivity|].
      destruct (existsb (fun x => py_eq_str x "wireguard") items); [reflexivity|].
      destruct (existsb (fun x => py_eq_str x "tags") items); reflexivity.
    - destruct (config_document (VDict d)) eqn:E.
      + now apply tfvars_lines_document.
      + now apply tfvars_lines_not_document. }
  split; [exact H|].
  destruct config; rewrite H; try discriminate;
    match goal with |- context [if ?b then _ else _] => destruct b end;
    discriminate.
Qed.

Lemma concat_app sep (a b : list string) :
  a <> [] -> b <> [] ->
  String.concat sep (a ++ b)
  = String.concat sep a ++ sep ++ String.concat sep b.
Proof.
  intros Ha Hb. destruct b as [|x b]; [congruence|].
  destruct b as [|y b].
  - induction a as [|z a IH]; [congruence|]. destruct a as [|z' a].
    + reflexivity.
    + change ((z :: z' :: a) ++ [x])%list with (z :: ((z' :: a) ++ [x]))%list.
      rewrite concat_cons by discriminate. rewrite IH by discriminate.
      rewrite (concat_cons sep z (z' :: a)) by discriminate.
      now rewrite !string_app_assoc.
  - rewrite concat_split by (assumption || discriminate).
    rewrite (concat_cons sep x (y :: b)) by discriminate.
    reflexivity.
Qed.

(** X7: for every configuration document the output text starts with the
    five comment lines of the header and ends with a line break. *)
Theorem yaml_to_tfvars_text_shape (config : value) :
  config_document config = true ->
  exists text,
    yaml_to_tfvars config = Ok text
    /\ (exists rest, text = String.concat nl comment_header ++ nl ++ rest)
    /\ (exists front, text = front ++ nl).
Proof.
  intros H. exists (String.concat nl (document_lines config)).
  split; [now apply yaml_to_tfvars_document|]. split.
  - unfold document_lines. rewrite header_comment_header, <- app_assoc.
    rewrite concat_app by discriminate. eauto.
  - destruct (document_lines_end config) as (l & E). rewrite E.
    destruct l as [|x l].
    + exfalso. unfold document_lines, header in E. discriminate E.
    + rewrite concat_app by discriminate. exists (String.concat nl (x :: l)).
      reflexivity.
Qed.

Lemma yaml_to_tfvars_text_shape_witness :
  config_document sample_config = true
  /\ exists text,
      yaml_to_tfvars sample_config = Ok text
      /\ exists front, text = front ++ nl.
Proof.
  split; [reflexivity|].
  destruct (yaml_to_tfvars_text_shape sample_config eq_refl)
    as (text & H1 & _ & H2).
  exists text. split; [exact H1 | exact H2].
Defined.

(** *** One line for each field *)

Lemma is_line_of_assignment (f g : field) (v : value) :
  is_line_of f (assignment g v) = true <-> f = g.
Proof.
  unfold is_line_of, assignment.
  destruct f, g; cbn; split; intros H; try reflexivity; try discriminate H;
    destruct (to_hcl_value v 0); reflexivity.
Qed.

Lemma count_field_lines config (f g : field) :
  length (filter (is_line_of f) (field_lines config g))
  = match emitted_value config g with
    | Some v => if is_line_of f (assignment g v) then 1 else 0
    | None => 0
    end.
Proof.
  unfold field_lines. destruct (emitted_value config g) as [v|]; [|reflexivity].
  cbn [filter]. now destruct (is_line_of f (assignment g v)).
Qed.

Lemma count_other_field config (f g : field) :
  f <> g -> length (filter (is_line_of f) (field_lines config g)) = 0.
Proof.
  intros Hfg. rewrite count_field_lines.
  destruct (emitted_value config g) as [v|]; [|reflexivity].
  destruct (is_line_of f (assignment g v)) eqn:E; [|reflexivity].
  apply is_line_of_assignment in E. contradiction.
Qed.

Lemma count_same_field config (f : field) :
  length (filter (is_line_of f) (field_lines config f))
  = match emitted_value config f with Some _ => 1 | None => 0 end.
Proof.
  rewrite count_field_lines.
  destruct (emitted_value config f) as [v|]; [|reflexivity].
  now rewrite (proj2 (is_line_of_assignment f f v) eq_refl).
Qed.

Lemma count_section config (f : field) (fs : list field) :
  NoDup fs ->
  length (filter (is_line_of f) (flat_map (field_lines config) fs))
  = if in_dec field_eq_dec f fs
    then match emitted_value config f with Some _ => 1 | None => 0 end
    else 0.
Proof.
  induction 1 as [|g fs Hg Hfs IH]; [reflexivity|].
  cbn [flat_map]. rewrite filter_app, length_app, IH.
  destruct (in_dec field_eq_dec f fs) as [Hin | Hout];
    destruct (in_dec field_eq_dec f (g :: fs)) as [Hin' | Hout'].
  - rewrite count_other_field; [reflexivity|]. intros ->. contradiction.
  - exfalso. apply Hout'. now right.
  - destruct Hin' as [-> | Hin']; [|contradiction].
    rewrite count_same_field. lia.
  - rewrite count_other_field; [reflexivity|]. intros ->. apply Hout'. now left.
Qed.

Lemma fields_of_group_nodup (name : string) : NoDup (fields_of_group name).
Proof.
  unfold fields_of_group. apply NoDup_filter. unfold all_fields.
  repeat constructor; cbn [In]; intuition discriminate.
Qed.

Lemma count_group config (f : field) (name : string) :
  length (filter (is_line_of f) (group_lines config name))
  = if group_present config name
    then if in_dec field_eq_dec f (fields_of_group name)
         then match emitted_value config f with Some _ => 1 | None => 0 end
         else 0
    else 0.
Proof.
  unfold group_lines. destruct (group_present config name); [|reflexivity].
  unfold section_lines. rewrite filter_app, length_app.
  rewrite count_section by apply fields_of_group_nodup.
  assert (E : filter (is_line_of f) [""] = []) by (destruct f; reflexivity).
  rewrite E. cbn [length]. lia.
Qed.

(** X8: for every configuration document the output assigns each variable
    at most once: the line of a whitelisted field appears exactly once when
    the field is emitted, and no line starts with its identifier
    otherwise. *)
Theorem one_line_per_field (config : value) :
  config_document config = true ->
  exists lines,
    tfvars_lines config = Ok lines
    /\ forall f,
         length (filter (is_line_of f) lines)
         = match emitted_value config f with Some _ => 1 | None => 0 end.
Proof.
  intros H. exists (document_lines config).
  split; [now apply tfvars_lines_document|]. intros f.
  unfold document_lines, group_names. cbn [flat_map].
  rewrite !filter_app, !length_app, !count_group.
  assert (Eh : filter (is_line_of f) header = [])
    by (destruct f; reflexivity).
  rewrite Eh. cbn [length filter].
  pose proof (emitted_value_present config f) as Hp.
  destruct (emitted_value config f) as [v|].
  - specialize (Hp v eq_refl).
    destruct f; cbn [group_of] in Hp; rewrite Hp;
      repeat match goal with
             | |- context [in_dec field_eq_dec ?x ?l] =>
                 let b := eval vm_compute in
                   (if in_dec field_eq_dec x l then true else false) in
                 match b with
                 | true => destruct (in_dec field_eq_dec x l) as [_ | Hn];
                           [| exfalso; apply Hn; vm_compute; tauto]
                 | false => destruct (in_dec field_eq_dec x l) as [Hi | _];
                            [exfalso; vm_compute in Hi; intuition discriminate |]
                 end
             end;
      repeat match goal with
             | |- context [group_present config ?n] =>
                 destruct (group_present config n)
             end; reflexivity.
  - repeat match goal with
           | |- context [group_present config ?n] =>
               destruct (group_present config n)
           end;
      repeat match goal with
             | |- context [in_dec field_eq_dec ?x ?l] =>
                 destruct (in_dec field_eq_dec x l)
             end; reflexivity.
Qed.

Lemma one_line_per_field_witness :
  config_document sample_config = true
  /\ exists lines,
      tfvars_lines sample_config = Ok lines
      /\ length (filter (is_line_of azure_location) lines) = 1
      /\ length (filter (is_line_of azure_vm_size) lines) = 0.
Proof.
  split; [reflexivity|].
  destruct (one_line_per_field sample_config eq_refl) as (lines & H1 & H2).
  exists lines. split; [exact H1|]. split.
  - exact (H2 azure_location).
  - exact (H2 azure_vm_size).
Defined.

(** ** More on [validate_config] *)

Lemma substring_all (s : string) : String.substring 0 (String.length s) s = s.
Proof. induction s as [|c s IH]; cbn; [reflexivity | now rewrite IH]. Qed.

Lemma substring_skip (p s : string) (m : nat) :
  String.substring (String.length p) m (p ++ s) = String.substring 0 m s.
Proof. induction p as [|c p IH]; [reflexivity | exact IH]. Qed.

Lemma substring_split (s : string) (k : nat) :
  k <= String.length s ->
  s = String.substring 0 k s
      ++ String.substring k (String.length s - k) s.
Proof.
  revert k. induction s as [|c s IH]; intros k Hk.
  - cbn in Hk. now replace k with 0 by lia.
  - destruct k as [|k].
    + rewrite Nat.sub_0_r, substring_all. reflexivity.
    + cbn [String.length] in Hk |- *. cbn [String.substring String.append].
      f_equal. rewrite Nat.sub_succ. apply IH. lia.
Qed.

(** [s.endswith(suffix)] holds exactly when [s] is some text followed by
    [suffix]. *)
Lemma str_endswith_spec (s suffix : string) :
  str_endswith s suffix = true <-> exists p, s = p ++ suffix.
Proof.
  unfold str_endswith. rewrite andb_true_iff, Nat.leb_le, String.eqb_eq. split.
  - remember (String.length suffix) as m eqn:Em. intros [Hle E].
    exists (String.substring 0 (String.length s - m) s). rewrite <- E.
    pose proof (substring_split s (String.length s - m)) as H.
    replace (String.length s - (String.length s - m)) with m in H by lia.
    apply H. lia.
  - intros [p ->]. rewrite string_length_app. split; [lia|].
    replace (String.length p + String.length suffix - String.length suffix)
      with (String.length p) by lia.
    rewrite substring_skip. apply substring_all.
Qed.

Lemma ssh_problems_pick (g : list (string * value)) :
  ssh_problems g
  = (pick (unset_or_placeholder (get_or_none g "admin_username"))
       (not_set_problem "ssh.admin_username")
     ++ pick (unset_or_placeholder (get_or_none g "allowed_ipv4"))
          (not_set_problem "ssh.allowed_ipv4")
     ++ pick (existsb (py_eq_str (get_or_none g "admin_username"))
                common_default_names)
          default_name_problem
     ++ pick (suffix_missing (get_or_none g "allowed_ipv4")) suffix_problem)%list.
Proof.
  unfold ssh_problems, pick, suffix_missing. cbv zeta.
  now destruct (get_or_none g "allowed_ipv4").
Qed.

(** Each problem is in the list exactly when its rule is broken. *)
Lemma in_picks (b1 b2 b3 b4 : bool) :
  let errors :=
    (pick b1 (not_set_problem "ssh.admin_username")
     ++ pick b2 (not_set_problem "ssh.allowed_ipv4")
     ++ pick b3 default_name_problem
     ++ pick b4 suffix_problem)%list in
  (In (not_set_problem "ssh.admin_username") errors <-> b1 = true)
  /\ (In (not_set_problem "ssh.allowed_ipv4") errors <-> b2 = true)
  /\ (In default_name_problem errors <-> b3 = true)
  /\ (In suffix_problem errors <-> b4 = true).
Proof.
  destruct b1, b2, b3, b4; cbn; repeat split; intros H;
    try reflexivity; try discriminate H; try tauto;
    repeat (destruct H as [H | H]; [discriminate H|]); destruct H.
Qed.

(** The validator on a document on which it returns. *)
Lemma validator_returns_inv (config : value) :
  validator_returns config = true ->
  exists d g,
    config = VDict d /\ ssh_or_empty d = VDict g
    /\ validate_config config = Ok (ssh_problems g)
    /\ (forall f key, group_of f = "ssh" -> key_of f = Some key ->
                      field_value config f = dict_lookup key g).
Proof.
  intros H. destruct config as [| | | | | |d]; try discriminate H.
  pose proof H as H'. unfold validator_returns in H'.
  destruct (ssh_or_empty d) as [| | | | | |g] eqn:Hg; try discriminate H'.
  exists d, g. split; [reflexivity|]. split; [exact Hg|].
  split; [now apply validate_config_ssh|].
  intros f key Hf Hk. now apply field_value_ssh.
Qed.

Lemma validate_config_raises (config : value) :
  validator_returns config = false ->
  validate_config config = Raise AttributeError.
Proof.
  intros H. destruct config as [| | | | | |d]; try reflexivity.
  unfold validator_returns in H. unfold validate_config.
  cbn [py_get bind]. fold (ssh_or_empty d).
  destruct (ssh_or_empty d) as [| | | | | |g]; try reflexivity.
  cbn [py_get bind py_getitem]. fold (get_or_none g "allowed_ipv4").
  cbv zeta in H. unfold get_or_none in *.
  destruct (dict_lookup "allowed_ipv4" g) as [ip|]; [|discriminate H].
  destruct (truthy ip); [|discriminate H].
  destruct ip; try reflexivity. discriminate H.
Qed.

(** On a document on which it returns, the validator gives the problems of
    the four rules, in the order of the rules. *)
Lemma validator_rules (config : value) :
  validator_returns config = true ->
  validate_config config
  = Ok (pick (unset_or_placeholder (field_or_none config ssh_admin_username))
          (not_set_problem "ssh.admin_username")
        ++ pick (unset_or_placeholder (field_or_none config ssh_allowed_ipv4))
             (not_set_problem "ssh.allowed_ipv4")
        ++ pick (existsb (py_eq_str (field_or_none config ssh_admin_username))
                   common_default_names)
             default_name_problem
        ++ pick (suffix_missing (field_or_none config ssh_allowed_ipv4))
             suffix_problem)%list.
Proof.
  intros H. destruct (validator_returns_inv config H) as (d & g & -> & Hg & Hv & Hf).
  rewrite Hv, ssh_problems_pick. unfold field_or_none.
  rewrite (Hf ssh_admin_username "admin_username" eq_refl eq_refl).
  rewrite (Hf ssh_allowed_ipv4 "allowed_ipv4" eq_refl eq_refl).
  reflexivity.
Qed.

Lemma validator_returns_false (config : value) :
  validator_returns config = false
  <-> (forall d, config <> VDict d)
      \/ (exists d grp, config = VDict d /\ dict_lookup "ssh" d = Some grp
                        /\ forall g, grp <> VDict g)
      \/ (exists v, field_value config ssh_allowed_ipv4 = Some v
                    /\ truthy v = true /\ forall s, v <> VStr s).
Proof.
  split.
  - intros H. destruct config as [| | | | | |d];
      try (left; intros d; discriminate).
    right. unfold validator_returns, ssh_or_empty in H.
    unfold field_value. cbn [group_of key_of].
    destruct (dict_lookup "ssh" d) as [grp|] eqn:Hssh.
    + destruct grp as [| | | | | |g];
        try (left; eexists _, _; split; [reflexivity|]; split; [exact Hssh|];
             intros g; discriminate).
      right. cbv zeta in H. unfold get_or_none in H.
      destruct (dict_lookup "allowed_ipv4" g) as [ip|]; [|discriminate H].
      exists ip. split; [reflexivity|].
      apply orb_false_iff in H as [Ht Hs]. apply negb_false_iff in Ht.
      split; [exact Ht|]. intros s ->. discriminate Hs.
    + discriminate H.
  - intros [H | [(d & grp & -> & Hg & Hn) | (v & Hv & Ht & Hs)]].
    + destruct config; try reflexivity. now contradiction (H items).
    + unfold validator_returns, ssh_or_empty. rewrite Hg.
      destruct grp; try reflexivity. now contradiction (Hn items).
    + destruct config as [| | | | | |d]; try discriminate Hv.
      unfold field_value in Hv. cbn [group_of key_of] in Hv.
      unfold validator_returns, ssh_or_empty.
      destruct (dict_lookup "ssh" d) as [grp|]; [|discriminate Hv].
      destruct grp as [| | | | | |g]; try reflexivity.
      cbv zeta. unfold get_or_none. rewrite Hv, Ht.
      destruct v; try reflexivity. now contradiction (Hs s).
Qed.

(** X9: the validator raises exactly when the document is not a mapping,
    when its [ssh] group is present and not a mapping, or when
    [ssh.allowed_ipv4] is true in a condition and not a string; the exception
    is always [AttributeError].  On every other document it returns a
    list. *)
Theorem validate_config_outcome (config : value) :
  (validate_config config = Raise AttributeError
   <-> (forall d, config <> VDict d)
       \/ (exists d grp, config = VDict d /\ dict_lookup "ssh" d = Some grp
                         /\ forall g, grp <> VDict g)
       \/ (exists v, field_value config ssh_allowed_ipv4 = Some v
                     /\ truthy v = true /\ forall s, v <> VStr s))
  /\ (forall e, validate_config config = Raise e -> e = AttributeError)
  /\ ((exists errors, validate_config config = Ok errors)
      \/ validate_config config = Raise AttributeError).
Proof.
  rewrite <- validator_returns_false.
  destruct (validator_returns config) eqn:E.
  - rewrite (validator_rules config E). split; [split; discriminate|].
    split; [discriminate|]. left. eauto.
  - rewrite (validate_config_raises config E). split; [split; reflexivity|].
    split; [now intros e [= <-]|]. now right.
Qed.

Lemma field_or_none_unset (config : value) (f : field) :
  unset_or_placeholder (field_or_none config f) = true
  <-> field_value config f = None
      \/ exists v, field_value config f = Some v
                   /\ (truthy v = false \/ v = VStr "CHANGEME"
                       \/ v = VStr "CHANGEME/32").
Proof.
  rewrite unset_or_placeholder_iff. unfold field_or_none.
  destruct (field_value config f) as [v|].
  - split.
    + intros H. right. now exists v.
    + intros [H | (w & [= <-] & H)]; [discriminate H | exact H].
  - split; [now left | intros _; now left].
Qed.

Lemma default_name_iff (name : value) :
  existsb (py_eq_str name) common_default_names = true
  <-> exists s, name = VStr s /\ In s common_default_names.
Proof.
  rewrite existsb_exists. split.
  - intros (s & Hin & E). destruct name; try discriminate E.
    cbn [py_eq_str] in E. apply String.eqb_eq in E. subst. eauto.
  - intros (s & -> & Hin). exists s. split; [exact Hin|].
    cbn [py_eq_str]. apply String.eqb_refl.
Qed.

Lemma suffix_missing_iff (ip : value) :
  suffix_missing ip = true
  <-> exists s, ip = VStr s /\ s <> "" /\ ~ (exists p, s = p ++ "/32").
Proof.
  unfold suffix_missing. split.
  - destruct ip as [| | | | s | |]; try discriminate.
    cbn [truthy]. rewrite andb_true_iff, !negb_true_iff.
    intros [Hs He]. exists s. split; [reflexivity|]. split.
    + intros ->. discriminate Hs.
    + intros Hp. apply str_endswith_spec in Hp. congruence.
  - intros (s & -> & Hs & He). cbn [truthy].
    rewrite andb_true_iff, !negb_true_iff. split.
    + apply String.eqb_neq. exact Hs.
    + destruct (str_endswith s "/32") eqn:E; [|reflexivity].
      apply str_endswith_spec in E. contradiction.
Qed.

Lemma field_or_none_str (config : value) (f : field) (s : string) :
  s <> "" \/ field_value config f <> None ->
  field_or_none config f = VStr s <-> field_value config f = Some (VStr s).
Proof.
  unfold field_or_none. destruct (field_value config f) as [v|].
  - intros _. split; [now intros -> | now intros [= ->]].
  - intros [_ | H]; [|now contradiction H]. split; discriminate.
Qed.

(** X10: on every document on which the validator returns, the list has the
    not-set-or-placeholder problem of [ssh.allowed_ipv4] exactly when the
    field is absent, falsy, or equal to [CHANGEME] or [CHANGEME/32]. *)
Theorem allowed_ipv4_not_set (config : value) :
  validator_returns config = true ->
  exists errors,
    validate_config config = Ok errors
    /\ (In "  - ssh.allowed_ipv4: not set or still CHANGEME" errors
        <-> field_value config ssh_allowed_ipv4 = None
            \/ exists v,
                 field_value config ssh_allowed_ipv4 = Some v
                 /\ (truthy v = false \/ v = VStr "CHANGEME"
                     \/ v = VStr "CHANGEME/32")).
Proof.
  intros H. eexists. split; [exact (validator_rules config H)|].
  rewrite <- field_or_none_unset. apply in_picks.
Qed.

Lemma allowed_ipv4_not_set_witness :
  validator_returns empty_tags_config = true
  /\ exists errors,
      validate_config empty_tags_config = Ok errors
      /\ In "  - ssh.allowed_ipv4: not set or still CHANGEME" errors.
Proof.
  split; [reflexivity|].
  destruct (allowed_ipv4_not_set empty_tags_config eq_refl) as (errors & H1 & H2).
  exists errors. split; [exact H1|]. apply H2. now left.
Defined.

(** X11: on every document on which the validator returns, the list has the
    default-name problem exactly when [ssh.admin_username] is one of the
    strings [admin], [root], [azureuser], [ubuntu], [administrator], compared
    with the case of the letters; the rule does not depend on the
    not-set-or-placeholder rule. *)
Theorem admin_username_default_name (config : value) :
  validator_returns config = true ->
  exists errors,
    validate_config config = Ok errors
    /\ (In "  - ssh.admin_username: cannot be a common default name" errors
        <-> exists s,
              field_value config ssh_admin_username = Some (VStr s)
              /\ In s ["admin"; "root"; "azureuser"; "ubuntu"; "administrator"]).
Proof.
  intros H. eexists. split; [exact (validator_rules config H)|].
  etransitivity; [apply in_picks|]. rewrite default_name_iff. split.
  - intros (s & E & Hin). exists s. split; [|exact Hin].
    apply field_or_none_str; [|exact E]. left. intros ->.
    cbn [In common_default_names] in Hin.
    repeat (destruct Hin as [Hin | Hin]; [discriminate Hin|]). exact Hin.
  - intros (s & E & Hin). exists s. split; [|exact Hin].
    apply field_or_none_str; [|exact E]. right. congruence.
Qed.

(** A document whose [ssh.admin_username] is [root] and whose
    [ssh.allowed_ipv4] has no suffix. *)
Lemma admin_username_default_name_witness :
  validator_returns
    (VDict [ ("ssh", VDict [ ("admin_username", VStr "root");
                             ("allowed_ipv4", VStr "1.2.3.4") ]) ]) = true
  /\ exists errors,
      validate_config
        (VDict [ ("ssh", VDict [ ("admin_username", VStr "root");
                                 ("allowed_ipv4", VStr "1.2.3.4") ]) ])
      = Ok errors
      /\ In "  - ssh.admin_username: cannot be a common default name" errors.
Proof.
  split; [reflexivity|].
  destruct (admin_username_default_name
              (VDict [ ("ssh", VDict [ ("admin_username", VStr "root");
                                       ("allowed_ipv4", VStr "1.2.3.4") ]) ])
              eq_refl) as (errors & H1 & H2).
  exists errors. split; [exact H1|]. apply H2. exists "root".
  split; [reflexivity|]. cbn [In]. tauto.
Defined.

(** X12: on every document on which the validator returns, the list has the
    suffix problem exactly when [ssh.allowed_ipv4] is a string that is not
    empty and does not end with [/32]. *)
Theorem allowed_ipv4_suffix (config : value) :
  validator_returns config = true ->
  exists errors,
    validate_config config = Ok errors
    /\ (In "  - ssh.allowed_ipv4: must end with /32" errors
        <-> exists s,
              field_value config ssh_allowed_ipv4 = Some (VStr s)
              /\ s <> "" /\ ~ (exists p, s = p ++ "/32")).
Proof.
  intros H. eexists. split; [exact (validator_rules config H)|].
  etransitivity; [apply in_picks|]. rewrite suffix_missing_iff. split.
  - intros (s & E & Hs & He). exists s. split; [|now split].
    apply field_or_none_str; [now left | exact E].
  - intros (s & E & Hs & He). exists s. split; [|now split].
    apply field_or_none_str; [now left | exact E].
Qed.

Lemma allowed_ipv4_suffix_witness :
  validator_returns sample_config = true
  /\ exists errors,
      validate_config sample_config = Ok errors
      /\ ~ In "  - ssh.allowed_ipv4: must end with /32" errors.
Proof.
  split; [reflexivity|].
  destruct (allowed_ipv4_suffix sample_config eq_refl) as (errors & H1 & H2).
  exists errors. split; [exact H1|]. intros Hin.
  apply H2 in Hin as (s & [= <-] & _ & He). apply He. now exists "1.2.3.4".
Defined.

Lemma picks_nil (b1 b2 b3 b4 : bool) (p1 p2 p3 p4 : string) :
  (pick b1 p1 ++ pick b2 p2 ++ pick b3 p3 ++ pick b4 p4)%list = []
  <-> b1 = false /\ b2 = false /\ b3 = false /\ b4 = false.
Proof.
  destruct b1, b2, b3, b4; cbn; split; intros H;
    try discriminate H; try tauto; try reflexivity;
    destruct H as (? & ? & ? & ?); discriminate.
Qed.

Lemma validator_returns_ip (config : value) :
  validator_returns config = true ->
  truthy (field_or_none config ssh_allowed_ipv4) = true ->
  exists s, field_value config ssh_allowed_ipv4 = Some (VStr s).
Proof.
  intros H Ht. destruct (validator_returns_inv config H) as (d & g & -> & Hg & _ & Hf).
  unfold field_or_none in Ht.
  rewrite (Hf ssh_allowed_ipv4 "allowed_ipv4" eq_refl eq_refl) in Ht |- *.
  unfold validator_returns in H. rewrite Hg in H. cbv zeta in H.
  unfold get_or_none in H.
  destruct (dict_lookup "allowed_ipv4" g) as [ip|]; [|discriminate Ht].
  rewrite Ht in H. destruct ip; try discriminate H. eauto.
Qed.

Lemma field_value_returns (config : value) (s : string) :
  field_value config ssh_allowed_ipv4 = Some (VStr s) ->
  validator_returns config = true.
Proof.
  destruct config as [| | | | | |d]; try discriminate.
  unfold field_value, validator_returns, ssh_or_empty. cbn [group_of key_of].
  destruct (dict_lookup "ssh" d) as [grp|]; [|discriminate].
  destruct grp as [| | | | | |g]; try discriminate.
  cbv zeta. unfold get_or_none. intros ->. apply orb_true_r.
Qed.

(** X13: the validator returns the empty list exactly when
    [ssh.admin_username] is present and true in a condition (of any type),
    is neither placeholder and none of the default names, and
    [ssh.allowed_ipv4] is a string that ends with [/32] and is not the
    placeholder [CHANGEME/32]. *)
Theorem validate_config_valid (config : value) :
  validate_config config = Ok []
  <-> exists name p,
        field_value config ssh_admin_username = Some name
        /\ truthy name = true
        /\ name <> VStr "CHANGEME" /\ name <> VStr "CHANGEME/32"
        /\ (forall s,
              In s ["admin"; "root"; "azureuser"; "ubuntu"; "administrator"] ->
              name <> VStr s)
        /\ field_value config ssh_allowed_ipv4 = Some (VStr (p ++ "/32"))
        /\ p <> "CHANGEME".
Proof.
  split.
  - intros H.
    assert (Hr : validator_returns config = true)
      by (apply validate_config_returns; eauto).
    rewrite (validator_rules config Hr) in H. injection H as H.
    apply picks_nil in H as (H1 & H2 & H3 & H4).
    assert (U : forall f,
      unset_or_placeholder (field_or_none config f) = false ->
      exists v, field_value config f = Some v /\ truthy v = true
                /\ v <> VStr "CHANGEME" /\ v <> VStr "CHANGEME/32").
    { intros f Hf. destruct (field_value config f) as [v|] eqn:E.
      - exists v. split; [reflexivity|].
        assert (N : ~ (truthy v = false \/ v = VStr "CHANGEME"
                       \/ v = VStr "CHANGEME/32")).
        { intros N. apply unset_or_placeholder_iff in N.
          unfold field_or_none in Hf. rewrite E in Hf. congruence. }
        destruct (truthy v); [|exfalso; apply N; now left].
        split; [reflexivity|]. split; intros ->; apply N; tauto.
      - unfold field_or_none in Hf. rewrite E in Hf. discriminate Hf. }
    destruct (U _ H1) as (name & En & Tn & Nn1 & Nn2).
    destruct (U _ H2) as (ip & Ei & Ti & Ni1 & Ni2).
    assert (Hs : exists s, ip = VStr s).
    { destruct (validator_returns_ip config Hr) as (s & Es).
      - unfold field_or_none. now rewrite Ei.
      - exists s. congruence. }
    destruct Hs as (s & ->).
    unfold field_or_none in H4. rewrite Ei in H4. cbn [suffix_missing] in H4.
    rewrite Ti in H4. cbn [andb] in H4. apply negb_false_iff in H4.
    apply str_endswith_spec in H4 as (p & ->).
    exists name, p. repeat split; try assumption.
    + intros d Hd ->. unfold field_or_none in H3. rewrite En in H3.
      assert (T : existsb (py_eq_str (VStr d)) common_default_names = true)
        by (apply default_name_iff; eauto).
      unfold common_default_names in T. cbn [existsb] in T, H3. congruence.
    + intros ->. now apply Ni2.
  - intros (name & p & En & Tn & Nn1 & Nn2 & Nd & Ei & Np).
    rewrite (validator_rules config (field_value_returns config _ Ei)).
    f_equal. apply picks_nil. unfold field_or_none. rewrite En, Ei.
    split; [|split; [|split]].
    + destruct (unset_or_placeholder name) eqn:E; [|reflexivity].
      apply unset_or_placeholder_iff in E as [E | [E | E]]; congruence.
    + destruct (unset_or_placeholder (VStr (p ++ "/32"))) eqn:E; [|reflexivity].
      apply unset_or_placeholder_iff in E as [E | [E | E]].
      * cbn [truthy] in E. apply negb_false_iff, String.eqb_eq in E.
        destruct p; discriminate E.
      * exfalso. injection E as E.
        assert (L : str_endswith "CHANGEME" "/32" = true)
          by (apply str_endswith_spec; now exists p).
        discriminate L.
      * exfalso. injection E as E. apply Np.
        now apply (string_app_inv_tail p "CHANGEME" "/32").
    + destruct (existsb (py_eq_str name) common_default_names) eqn:E;
        [|reflexivity].
      apply default_name_iff in E as (s & -> & Hin). now contradiction (Nd s Hin).
    + cbn [suffix_missing truthy].
      assert (L : str_endswith (p ++ "/32") "/32" = true)
        by (apply str_endswith_spec; now exists p).
      rewrite L. apply andb_false_r.
Qed.

(** X14: how the rules compose.  On every document on which the validator
    returns, the list holds each problem at most once, in the order of the
    rules, and at most three of the four: [ssh.admin_username] is never
    reported both as not set and as a default name.  [ssh.allowed_ipv4] is
    reported both as not set and for its suffix exactly when it is the
    placeholder [CHANGEME]. *)
Theorem validate_config_composition (config : value) :
  validator_returns config = true ->
  exists b1 b2 b3 b4 : bool,
    validate_config config
    = Ok ((if b1 then ["  - ssh.admin_username: not set or still CHANGEME"]
           else [])
          ++ (if b2 then ["  - ssh.allowed_ipv4: not set or still CHANGEME"]
              else [])
          ++ (if b3
              then ["  - ssh.admin_username: cannot be a common default name"]
              else [])
          ++ (if b4 then ["  - ssh.allowed_ipv4: must end with /32"] else []))%list
    /\ (b1 = true -> b3 = false)
    /\ (b2 = true /\ b4 = true
        <-> field_value config ssh_allowed_ipv4 = Some (VStr "CHANGEME")).
Proof.
  intros H.
  exists (unset_or_placeholder (field_or_none config ssh_admin_username)),
    (unset_or_placeholder (field_or_none config ssh_allowed_ipv4)),
    (existsb (py_eq_str (field_or_none config ssh_admin_username))
       common_default_names),
    (suffix_missing (field_or_none config ssh_allowed_ipv4)).
  split; [exact (validator_rules config H)|]. split.
  - intros H1.
    destruct (existsb _ common_default_names) eqn:E; [|reflexivity].
    apply default_name_iff in E as (s & E & Hin). rewrite E in H1.
    cbn [In common_default_names] in Hin.
    repeat (destruct Hin as [<- | Hin]; [discriminate H1|]). destruct Hin.
  - split.
    + intros [H2 H4]. apply suffix_missing_iff in H4 as (s & E & Hs & He).
      rewrite E in H2.
      apply unset_or_placeholder_iff in H2 as [H2 | [H2 | H2]].
      * cbn [truthy] in H2. apply negb_false_iff, String.eqb_eq in H2.
        contradiction.
      * apply field_or_none_str in E; [|now left]. congruence.
      * exfalso. apply He. injection H2 as ->. now exists "CHANGEME".
    + intros E. unfold field_or_none. rewrite E. split; reflexivity.
Qed.

Lemma validate_config_composition_witness :
  validator_returns
    (VDict [ ("ssh", VDict [ ("allowed_ipv4", VStr "CHANGEME") ]) ]) = true
  /\ exists b1 b2 b3 b4 : bool,
      validate_config
        (VDict [ ("ssh", VDict [ ("allowed_ipv4", VStr "CHANGEME") ]) ])
      = Ok ((if b1 then ["  - ssh.admin_username: not set or still CHANGEME"]
             else [])
            ++ (if b2 then ["  - ssh.allowed_ipv4: not set or still CHANGEME"]
                else [])
            ++ (if b3
                then ["  - ssh.admin_username: cannot be a common default name"]
                else [])
            ++ (if b4 then ["  - ssh.allowed_ipv4: must end with /32"]
                else []))%list
      /\ b2 = true /\ b4 = true.
Proof.
  split; [reflexivity|].
  destruct (validate_config_composition
              (VDict [ ("ssh", VDict [ ("allowed_ipv4", VStr "CHANGEME") ]) ])
              eq_refl) as (b1 & b2 & b3 & b4 & H & _ & H24).
  exists b1, b2, b3, b4. split; [exact H|]. apply H24. reflexivity.
Defined.

(** X15: the validator reads two fields only.  Two documents on which it
    returns and which give the same [ssh.admin_username] and the same
    [ssh.allowed_ipv4] get the same list, whatever else they hold; so a
    document without the [ssh] group is validated like one whose [ssh] group
    is empty. *)
Theorem validate_config_reads_two_fields (c1 c2 : value) :
  validator_returns c1 = true -> validator_returns c2 = true ->
  field_value c1 ssh_admin_username = field_value c2 ssh_admin_username ->
  field_value c1 ssh_allowed_ipv4 = field_value c2 ssh_allowed_ipv4 ->
  validate_config c1 = validate_config c2.
Proof.
  intros H1 H2 Hn Hi. rewrite (validator_rules c1 H1), (validator_rules c2 H2).
  unfold field_or_none. now rewrite Hn, Hi.
Qed.

Lemma validate_config_reads_two_fields_witness :
  validator_returns (VDict []) = true
  /\ validator_returns (VDict [("ssh", VDict []); ("tags", VNone)]) = true
  /\ validate_config (VDict [])
     = validate_config (VDict [("ssh", VDict []); ("tags", VNone)]).
Proof.
  do 2 (split; [reflexivity|]).
  exact (validate_config_reads_two_fields (VDict [])
           (VDict [("ssh", VDict []); ("tags", VNone)])
           eq_refl eq_refl eq_refl eq_refl).
Defined.

(** ** More on [main] *)

(** The runs of [main], case by case. *)
Ltac main_cases a file :=
  unfold main;
  let config := fresh "config" in
  let errors := fresh "errors" in
  destruct file as [| ? | config];
  [ | | destruct (validate_config config) as [errors | ?] eqn:Hv;
        [ destruct errors as [| ? errors]; destruct (validate a) eqn:Ha;
          cbn [andb negb];
          try (destruct (yaml_to_tfvars config) as [? | ?] eqn:Hy;
               [ destruct (output_path a) as [? | ] eqn:Ho | ])
        | ] ];
  cbn [stdout stderr written ended].

(** X16: in validate-only mode nothing is converted, whatever the file
    holds: no file is written, standard output gets at most the success
    message, the run ends by [sys.exit] or by an exception of the validator,
    and when the validator returns the run is fixed by its list alone, also
    on a document on which the conversion would raise. *)
Theorem main_validate_only (a : args) (file : load_result) :
  validate a = true ->
  written (main a file) = None
  /\ (forall line, In line (stdout (main a file)) ->
                   line = "Configuration is valid.")
  /\ ended (main a file) <> Returned
  /\ (forall config e,
        file = Loaded config -> ended (main a file) = Uncaught e ->
        validate_config config = Raise e)
  /\ (forall config errors,
        file = Loaded config -> validate_config config = Ok errors ->
        main a file
        = match errors with
          | [] =>
              {| stdout := ["Configuration is valid."]; stderr := [];
                 written := None; ended := SysExit 0 |}
          | _ =>
              {| stdout := [];
                 stderr := ("Configuration errors:" :: errors)%list;
                 written := None; ended := SysExit 1 |}
          end).
Proof.
  intros Hva. main_cases a file; try discriminate Hva;
    (split; [reflexivity|]);
    (split; [intros line Hl; cbn [In] in Hl; intuition congruence|]);
    (split; [discriminate|]);
    (split;
     [ intros c e' Hc He; try discriminate Hc; try discriminate He;
       injection Hc as <-; congruence
     | intros c es Hc He; try discriminate Hc; injection Hc as <-;
       rewrite Hv in He; try discriminate He; injection He as <-;
       reflexivity ]).
Qed.

(** A document on which the validator finds nothing and the conversion
    raises: the [azure] group is a string. *)
Lemma main_validate_only_witness :
  validate validate_args = true
  /\ yaml_to_tfvars
       (VDict [ ("azure", VStr "westeurope");
                ("ssh", VDict [ ("admin_username", VStr "tunnel");
                                ("allowed_ipv4", VStr "1.2.3.4/32") ]) ])
     = Raise AttributeError
  /\ ended
       (main validate_args
          (Loaded
             (VDict [ ("azure", VStr "westeurope");
                      ("ssh", VDict [ ("admin_username", VStr "tunnel");
                                      ("allowed_ipv4", VStr "1.2.3.4/32") ]) ])))
     <> Returned.
Proof.
  split; [reflexivity|]. split; [reflexivity|].
  exact (proj1 (proj2 (proj2 (main_validate_only validate_args _ eq_refl)))).
Defined.




(** X18: an empty output path is no output path: the run is the one without
    the option, and the conversion goes to standard output. *)
Theorem main_empty_output_path (a : args) (file : load_result) :
  output a = Some "" ->
  main a file = main (without_output a) file
  /\ written (main a file) = None.
Proof.
  intros Ho.
  assert (E : output_path a = None) by (unfold output_path; now rewrite Ho).
  assert (E' : output_path (without_output a) = None) by reflexivity.
  unfold main. rewrite E, E'. cbn [without_output validate config_file].
  split; [reflexivity|].
  destruct file as [| ? | config]; try reflexivity.
  destruct (validate_config config) as [errors | ?]; [|reflexivity].
  destruct errors, (validate a); cbn [andb negb];
    try reflexivity; destruct (yaml_to_tfvars config); reflexivity.
Qed.

Lemma main_empty_output_path_witness :
  stdout
    (main {| config_file := "config.yml"; output := Some ""; validate := false |}
       (Loaded sample_config))
  = [String.concat nl (document_lines sample_config)].
Proof.
  rewrite (proj1 (main_empty_output_path
                    {| config_file := "config.yml"; output := Some "";
                       validate := false |}
                    (Loaded sample_config) eq_refl)).
  reflexivity.
Defined.



(** ** Mappings and reports *)

Lemma count_char_spaces (n : nat) : count_char newline (spaces n) = 0.
Proof. induction n; [reflexivity | exact IHn]. Qed.

Lemma count_char_flat c (l : list string) :
  count_char c (flat l) = list_sum (map (count_char c) l).
Proof.
  induction l as [|x l IH]; [reflexivity|].
  cbn [flat fold_right map list_sum]. fold (flat l). fold (list_sum (map (count_char c) l)).
  now rewrite count_char_app, IH.
Qed.

(** X20: a mapping with entries is written with one entry on each line,
    between the line of the opening brace and the line of the closing one:
    its text has one line break for each entry, one more, and the line
    breaks of the keys and of the texts of the values. *)
Theorem mapping_line_breaks (kv : string * value) (items : list (string * value))
  (indent : nat) :
  count_char newline (to_hcl_value (VDict (kv :: items)) indent)
  = length (kv :: items) + 1
    + list_sum
        (map (fun kv =>
                count_char newline (fst kv)
                + count_char newline (to_hcl_value (snd kv) (indent + 2)))
           (kv :: items)).
Proof.
  rewrite dict_text. cbn [count_char]. change (Ascii.eqb "{" newline) with false.
  rewrite Ascii.eqb_refl, !count_char_app, count_char_spaces, count_char_flat.
  change (count_char newline "}") with 0. rewrite map_map.
  generalize (kv :: items) as l. intros l.
  assert (E : list_sum (map (fun x => count_char newline
                                        (field_text (indent + 2) (indent + 2) x)) l)
              = length l
                + list_sum
                    (map (fun kv0 =>
                            count_char newline (fst kv0)
                            + count_char newline
                                (to_hcl_value (snd kv0) (indent + 2))) l)).
  { induction l as [|x l IH]; [reflexivity|].
    cbn [map list_sum fold_right length]. unfold list_sum in IH. rewrite IH.
    unfold field_text, nl. rewrite !count_char_app, count_char_spaces.
    change (count_char newline " = ") with 0.
    change (count_char newline (String newline "")) with 1. lia. }
  rewrite E. cbv iota. lia.
Qed.

(** X21: the problems are always reported.  When the validator returns a
    list that is not empty, the error stream starts with the line
    [Configuration errors:] and the problems in their order, in both modes
    and also when the conversion then raises; in validate-only mode nothing
    follows them. *)
Theorem main_reports_problems (a : args) (config : value) (errors : list string) :
  validate_config config = Ok errors -> errors <> [] ->
  exists rest,
    stderr (main a (Loaded config))
    = ("Configuration errors:" :: errors ++ rest)%list
    /\ (validate a = true -> rest = [])
    /\ (validate a = false ->
        exists rest', rest = (continuing :: rest')%list).
Proof.
  intros Hv Hne. unfold main. rewrite Hv.
  destruct errors as [|x errors]; [now contradiction Hne|].
  destruct (validate a); cbn [andb negb].
  - exists []. cbn [stderr]. rewrite app_nil_r.
    split; [reflexivity|]. split; [reflexivity | discriminate].
  - destruct (yaml_to_tfvars config) as [text | e];
      [destruct (output_path a) as [path|]|]; cbn [stderr];
      eexists; (split; [|split; [discriminate | intros _; eexists; reflexivity]]);
      cbn [app]; rewrite <- ?app_assoc; reflexivity.
Qed.

Lemma main_reports_problems_witness :
  exists rest,
    stderr (main convert_args (Loaded empty_tags_config))
    = ([ "Configuration errors:";
         "  - ssh.admin_username: not set or still CHANGEME";
         "  - ssh.allowed_ipv4: not set or still CHANGEME" ] ++ rest)%list.
Proof.
  destruct (main_reports_problems convert_args empty_tags_config
              [ "  - ssh.admin_username: not set or still CHANGEME";
                "  - ssh.allowed_ipv4: not set or still CHANGEME" ]
              eq_refl ltac:(discriminate)) as (rest & H & _).
  exists rest. exact H.
Defined.
